(** * Presenters of the LeetCode accountability report

    A shallow embedding of [leetcode_accountability/presenters.py]:
    the two presenters ([TextPresenter], [HtmlPresenter]), their
    [present_stats] and [write_to_file] methods and the factory
    [get_presenter], followed by the properties of the report that the
    specification states about them. *)

From Stdlib Require Import ZArith Lia Ascii String.
From Stdlib Require Import DecimalString DecimalPos DecimalZ.
From Stdlib Require Import Sorting.Sorted Sorting.Permutation.
From stdpp Require Import base option list strings gmap.

Local Open Scope Z_scope.

(** ** Python strings

    A Python [str] is a sequence of Unicode code points; [len], the
    padding of a format specification and slicing all count code points.
    A code point is a natural number. *)

Definition char : Type := N.
Definition str : Type := list char.

(** An ASCII literal of the source, as the code points of its characters. *)
Fixpoint lit (s : string) : str :=
  match s with
  | EmptyString => []
  | String a s' => N_of_ascii a :: lit s'
  end.

Definition space : char := 32%N.
Definition newline : char := 10%N.

(** The three medal glyphs of the source. *)
Definition gold_glyph : char := 0x1F947%N.
Definition silver_glyph : char := 0x1F948%N.
Definition bronze_glyph : char := 0x1F949%N.

(** The decimal string of a Python [int]: decimal digits, a leading
    minus sign for a negative number.  It is what [str(n)], an f-string
    field and [format] produce when the conversion is made; the
    interpreter refuses the conversion of an integer with more digits
    than its limit allows, see [within_digit_limit] and
    [Dyn.int_to_str]. *)
Definition str_of_int (n : Z) : str :=
  lit (NilZero.string_of_int (Z.to_int n)).

(** The interpreter converts an integer to a decimal string only when it
    has at most [sys.get_int_max_str_digits()] digits, 4300 unless the
    interpreter is set up otherwise; the sign is not counted.  Beyond
    the limit the conversion raises [ValueError]. *)
Definition int_max_str_digits : nat := 4300.

Definition digits (n : Z) : nat := length (str_of_int (Z.abs n)).

Definition within_digit_limit (n : Z) : bool :=
  (digits n <=? int_max_str_digits)%nat.

(** [format(s, "<w")]: left-justified in a field of [w] code points,
    filled with spaces; a longer string is never cut. *)
Definition ljust (w : nat) (s : str) : str :=
  s ++ replicate (w - length s)%nat space.

(** [sep.join(parts)]. *)
Fixpoint join (sep : str) (parts : list str) : str :=
  match parts with
  | [] => []
  | [p] => p
  | p :: rest => p ++ sep ++ join sep rest
  end.

(** [s.endswith(suffix)]. *)
Definition endswith (s suffix : str) : bool :=
  bool_decide (drop (length s - length suffix)%nat s = suffix
               ∧ (length suffix ≤ length s)%nat).

(** [s.lower()] on the ASCII range: the letters [A]..[Z] go to [a]..[z],
    every other code point is kept.  Python lowers the cased letters
    outside ASCII as well; none of them lowers to one of the letters of
    the only key the source compares with, so the comparison made by
    [get_presenter] is the same under both. *)
Definition lower_char (c : char) : char :=
  if ((65 <=? c) && (c <=? 90))%N then (c + 32)%N else c.

Definition lower (s : str) : str := map lower_char s.

(** Truth value of an [Optional[str]]: [None] and the empty string are
    false. *)
Definition truthy (m : option str) : bool :=
  match m with
  | None => false
  | Some [] => false
  | Some (_ :: _) => true
  end.

(** ** The statistics record (entities.UserStats), as the presenters read it *)

Record UserStats : Type := mkUserStats {
  username : str;
  total_questions : Z;
  easy_count : Z;
  medium_count : Z;
  hard_count : Z
}.

(** ** [sorted(xs, key=..., reverse=True)]

    Python's sort is stable, and with [reverse=True] the elements with
    equal keys keep their original order as well.  The embedding is the
    stable insertion sort into descending key order: an element goes in
    front of the first element whose key is not greater than its own. *)

Section Sorted.
Context {A : Type} (key : A → Z).

Fixpoint insert_desc (x : A) (l : list A) : list A :=
  match l with
  | [] => [x]
  | y :: l' => if key y <=? key x then x :: y :: l'
               else y :: insert_desc x l'
  end.

Fixpoint sorted_desc (l : list A) : list A :=
  match l with
  | [] => []
  | x :: l' => insert_desc x (sorted_desc l')
  end.

(** Descending order of the keys. *)
Definition descending (a b : A) : Prop := key b ≤ key a.
End Sorted.

(** The medal of a zero-based rank, [None] from rank 3 on: the
    [if i == 0 / elif i == 1 / elif i == 2] chain of both presenters. *)
Inductive medal : Type := Gold | Silver | Bronze.

Definition medal_of_rank (i : nat) : option medal :=
  match i with
  | 0%nat => Some Gold
  | 1%nat => Some Silver
  | 2%nat => Some Bronze
  | _ => None
  end.

Definition glyph (m : medal) : char :=
  match m with
  | Gold => gold_glyph
  | Silver => silver_glyph
  | Bronze => bronze_glyph
  end.

(** The file system, as far as [write_to_file] touches it: the content
    of each path. *)
Abbreviation filesystem := (gmap str str).

(** ** The presenters on [UserStats] records

    The modules [Text] and [Html] embed the two classes for records
    whose fields have the types [entities.UserStats] declares; their
    [present_stats] is the string the method returns.  The method
    returns it when the interpreter converts every integer it shows,
    that is when the integers are within [int_max_str_digits]; the
    module [Dyn] further down embeds the same methods together with the
    exceptions they raise, the refusal of an integer beyond the limit
    included. *)

(** ** TextPresenter *)

Module Text.

(** The path [write_to_file] opens. *)
Definition target (filename : str) : str :=
  if endswith filename (lit ".txt") then filename
  else filename ++ lit ".txt".

(** [open(filename, "w")] truncates or creates the file, [f.write]
    stores the content.  A failure of the operating system to open or
    write the file is outside the embedding. *)
Definition write_to_file (filename content : str) (fs : filesystem)
  : filesystem :=
  <[target filename := content]> fs.

Definition title (days : Z) : str :=
  newline :: lit "LeetCode Statistics (Last " ++ str_of_int days
    ++ lit " Days)".

Definition rule : str := replicate 80 45%N.

Definition column_header : str :=
  ljust 25 (lit "Username") ++ space ::
  ljust 15 (lit "Total Questions") ++ space ::
  ljust 10 (lit "Easy") ++ space ::
  ljust 10 (lit "Medium") ++ space ::
  ljust 10 (lit "Hard").

Definition username_display (i : nat) (stats : UserStats) : str :=
  match medal_of_rank i with
  | Some m => username stats ++ [space; glyph m]
  | None => username stats
  end.

(** The line appended for the user at rank [i]. *)
Definition row (i : nat) (stats : UserStats) : str :=
  ljust 25 (username_display i stats) ++ space ::
  ljust 15 (str_of_int (total_questions stats)) ++ space ::
  ljust 10 (str_of_int (easy_count stats)) ++ space ::
  ljust 10 (str_of_int (medium_count stats)) ++ space ::
  ljust 10 (str_of_int (hard_count stats)).

(** The list [output] when the method returns. *)
Definition output (user_stats_list : list UserStats) (days : Z)
    (completion_message : option str) : list str :=
  let sorted_stats := sorted_desc total_questions user_stats_list in
  [title days; rule; column_header; rule]
    ++ imap row sorted_stats
    ++ [rule]
    ++ (if truthy completion_message
        then [default [] completion_message] else []).

Definition present_stats (user_stats_list : list UserStats) (days : Z)
    (completion_message : option str) : str :=
  join [newline] (output user_stats_list days completion_message).

End Text.

(** ** HtmlPresenter *)

Module Html.

Definition target (filename : str) : str :=
  if endswith filename (lit ".html") then filename
  else filename ++ lit ".html".

Definition write_to_file (filename content : str) (fs : filesystem)
  : filesystem :=
  <[target filename := content]> fs.

Definition dquote : char := 34%N.

(** The document head, up to the opening of the body. *)
Definition document_head : list str :=
  [ lit "<!DOCTYPE html>";
    lit "<html>";
    lit "<head>";
    lit "    <meta charset='UTF-8'>";
    lit "    <meta name='viewport' content='width=device-width, initial-scale=1.0'>";
    lit "    <title>LeetCode Accountability Report</title>";
    lit "    <style>";
    lit "        body { font-family: Arial, sans-serif; margin: 20px; }";
    lit "        h1 { color: #333; }";
    lit "        table { border-collapse: collapse; width: 100%; margin-top: 20px; }";
    lit "        th, td { padding: 12px; text-align: left; border-bottom: 1px solid #ddd; }";
    lit "        th { background-color: #f2f2f2; }";
    lit "        tr:hover { background-color: #f5f5f5; }";
    lit "        .message { margin: 20px 0; padding: 15px; background-color: #f8f9fa; border-left: 5px solid #4285f4; }";
    lit "        .first-place { font-weight: bold; }";
    lit "        .medal { font-size: 1.2em; }";
    lit "    </style>";
    lit "</head>";
    lit "<body>" ].

(** The heading and the header row of the table. *)
Definition stats_header (days : Z) : list str :=
  [ lit "<h1>LeetCode Statistics (Last " ++ str_of_int days
      ++ lit " Days)</h1>";
    lit "<table>";
    lit "    <tr>";
    lit "        <th>Username</th>";
    lit "        <th>Total Questions</th>";
    lit "        <th>Easy</th>";
    lit "        <th>Medium</th>";
    lit "        <th>Hard</th>";
    lit "    </tr>" ].

Definition row_class (i : nat) : str :=
  match i with
  | 0%nat => lit " class=" ++ [dquote] ++ lit "first-place" ++ [dquote]
  | _ => []
  end.

Definition medal_markup (i : nat) : str :=
  match medal_of_rank i with
  | Some m => lit " <span class=" ++ [dquote] ++ lit "medal" ++ [dquote]
                ++ lit ">" ++ [glyph m] ++ lit "</span>"
  | None => []
  end.

Definition cell (n : Z) : str :=
  lit "        <td>" ++ str_of_int n ++ lit "</td>".

Definition username_cell (i : nat) (stats : UserStats) : str :=
  lit "        <td><a href=" ++ [dquote] ++ lit "https://leetcode.com/u/"
    ++ username stats ++ lit "/" ++ [dquote] ++ lit " target=" ++ [dquote]
    ++ lit "_blank" ++ [dquote] ++ lit ">" ++ username stats ++ lit "</a>"
    ++ medal_markup i ++ lit "</td>".

(** The seven parts added for the user at rank [i]. *)
Definition row (i : nat) (stats : UserStats) : list str :=
  [ lit "    <tr" ++ row_class i ++ lit ">";
    username_cell i stats;
    cell (total_questions stats);
    cell (easy_count stats);
    cell (medium_count stats);
    cell (hard_count stats);
    lit "    </tr>" ].

Definition message_div (m : str) : str :=
  lit "<div class='message'>" ++ m ++ lit "</div>".

(** The list [html_parts] when the method returns. *)
Definition html_parts (user_stats_list : list UserStats) (days : Z)
    (completion_message : option str) : list str :=
  let sorted_stats := sorted_desc total_questions user_stats_list in
  document_head
    ++ stats_header days
    ++ mjoin (imap row sorted_stats)
    ++ [lit "</table>"]
    ++ (if truthy completion_message
        then [message_div (default [] completion_message)] else [])
    ++ [lit "</body>"; lit "</html>"].

Definition present_stats (user_stats_list : list UserStats) (days : Z)
    (completion_message : option str) : str :=
  join [newline] (html_parts user_stats_list days completion_message).

End Html.

(** ** The presenter interface and the factory *)

(** The presenters have no attributes, so an instance is its class. *)
Inductive BasePresenter : Type := TextPresenter | HtmlPresenter.

Definition present_stats (self : BasePresenter)
  : list UserStats → Z → option str → str :=
  match self with
  | TextPresenter => Text.present_stats
  | HtmlPresenter => Html.present_stats
  end.

Definition write_to_file (self : BasePresenter)
  : str → str → filesystem → filesystem :=
  match self with
  | TextPresenter => Text.write_to_file
  | HtmlPresenter => Html.write_to_file
  end.

(** [get_presenter(output_type="text")]; [None] is the call without an
    argument. *)
Definition get_presenter (output_type : option str) : BasePresenter :=
  let output_type := default (lit "text") output_type in
  if bool_decide (lower output_type = lit "html") then HtmlPresenter
  else TextPresenter.

(** ** The presenters on arbitrary objects

    Python checks nothing when [present_stats] is called: the elements of
    the list are objects with whatever attributes and attribute values
    the caller gave them.  This part embeds the two methods on such
    objects, with the exceptions the interpreter raises on the way. *)

Module Dyn.

(** The values an attribute is bound to here: integers, strings, [None]. *)
Inductive value : Type :=
| VInt (n : Z)
| VStr (s : str)
| VNone.

(** An object is the finite map of its attributes. *)
Abbreviation object := (gmap string value).

Inductive exception : Type := AttributeError | TypeError | ValueError.

Inductive result (A : Type) : Type :=
| Ok (a : A)
| Raise (e : exception).
Arguments Ok {A} a.
Arguments Raise {A} e.

Definition bind {A B : Type} (r : result A) (k : A → result B) : result B :=
  match r with
  | Ok a => k a
  | Raise e => Raise e
  end.

Notation "x <~ r ; k" := (bind r (λ x, k))
  (at level 20, r at level 100, k at level 200, right associativity,
   format "'[' x  <~  r ;  '/' k ']'").

(** Runs the computations of a list from left to right, up to the first
    exception. *)
Fixpoint sequence {A : Type} (l : list (result A)) : result (list A) :=
  match l with
  | [] => Ok []
  | r :: l' => a <~ r; rest <~ sequence l'; Ok (a :: rest)
  end.

(** [o.name]. *)
Definition getattr (o : object) (name : string) : result value :=
  match o !! name with
  | Some v => Ok v
  | None => Raise AttributeError
  end.

(** The conversion of an integer to its decimal string. *)
Definition int_to_str (n : Z) : result str :=
  if within_digit_limit n then Ok (str_of_int n) else Raise ValueError.

(** [str(v)], which is what an f-string field without a format
    specification produces. *)
Definition to_str (v : value) : result str :=
  match v with
  | VInt n => int_to_str n
  | VStr s => Ok s
  | VNone => Ok (lit "None")
  end.

(** [format(v, "<w")]: integers and strings are left-justified, [None]
    accepts no format specification. *)
Definition format_left (w : nat) (v : value) : result str :=
  match v with
  | VInt n => s <~ int_to_str n; Ok (ljust w s)
  | VStr s => Ok (ljust w s)
  | VNone => Raise TypeError
  end.

(** [a < b] on strings: the lexicographic order of the code points. *)
Fixpoint str_lt (a b : str) : bool :=
  match a, b with
  | _, [] => false
  | [], _ :: _ => true
  | x :: a', y :: b' => (x <? y)%N || ((x =? y)%N && str_lt a' b')
  end.

(** [a < b]: defined between two integers and between two strings. *)
Definition lt (a b : value) : result bool :=
  match a, b with
  | VInt x, VInt y => Ok (x <? y)
  | VStr x, VStr y => Ok (str_lt x y)
  | _, _ => Raise TypeError
  end.

(** [sorted(xs, key=lambda x: x.total_questions, reverse=True)].  The keys
    are computed first, for every element; then the elements are sorted
    by comparisons [<] of their keys.  The comparisons are those of the
    stable insertion into descending order; a comparison of two keys that
    cannot be ordered raises [TypeError].  Whether the sort raises does
    not depend on the order of the comparisons: it returns exactly when
    there is at most one key or the keys are all integers or all strings
    ([sort_desc_returns] below). *)
Fixpoint insert_desc (x : value * object) (l : list (value * object))
  : result (list (value * object)) :=
  match l with
  | [] => Ok [x]
  | y :: l' =>
      b <~ lt (fst x) (fst y);
      if b then (r <~ insert_desc x l'; Ok (y :: r))
      else Ok (x :: y :: l')
  end.

Fixpoint sort_desc (l : list (value * object))
  : result (list (value * object)) :=
  match l with
  | [] => Ok []
  | x :: l' => r <~ sort_desc l'; insert_desc x r
  end.

Definition sorted (xs : list object) : result (list object) :=
  keyed <~ sequence
             (map (λ x, k <~ getattr x "total_questions"; Ok (k, x)) xs);
  r <~ sort_desc keyed;
  Ok (map snd r).

(** The text row of the object at rank [i]: the attributes are read and
    formatted from left to right. *)
Definition text_row (i : nat) (stats : object) : result str :=
  u <~ getattr stats "username";
  username_display <~
    match medal_of_rank i with
    | Some m => s <~ to_str u; Ok (VStr (s ++ [space; glyph m]))
    | None => Ok u
    end;
  c1 <~ format_left 25 username_display;
  t <~ getattr stats "total_questions";
  c2 <~ format_left 15 t;
  e <~ getattr stats "easy_count";
  c3 <~ format_left 10 e;
  m <~ getattr stats "medium_count";
  c4 <~ format_left 10 m;
  h <~ getattr stats "hard_count";
  c5 <~ format_left 10 h;
  Ok (c1 ++ space :: c2 ++ space :: c3 ++ space :: c4 ++ space :: c5).

Definition text_present_stats (user_stats_list : list object) (days : Z)
    (completion_message : option str) : result str :=
  sorted_stats <~ sorted user_stats_list;
  d <~ int_to_str days;
  rows <~ sequence (imap text_row sorted_stats);
  Ok (join [newline]
        ([newline :: lit "LeetCode Statistics (Last " ++ d ++ lit " Days)";
          Text.rule; Text.column_header; Text.rule]
           ++ rows
           ++ [Text.rule]
           ++ (if truthy completion_message
               then [default [] completion_message] else []))).

Definition html_cell (content : str) : str :=
  lit "        <td>" ++ content ++ lit "</td>".

Definition html_username_cell (i : nat) (name : str) : str :=
  lit "        <td><a href=" ++ [Html.dquote] ++ lit "https://leetcode.com/u/"
    ++ name ++ lit "/" ++ [Html.dquote] ++ lit " target=" ++ [Html.dquote]
    ++ lit "_blank" ++ [Html.dquote] ++ lit ">" ++ name ++ lit "</a>"
    ++ Html.medal_markup i ++ lit "</td>".

(** The HTML parts of the object at rank [i]: every attribute is read
    and turned into a string where its f-string field stands. *)
Definition html_row (i : nat) (stats : object) : result (list str) :=
  _ <~ getattr stats "username";
  u <~ getattr stats "username";
  name <~ to_str u;
  t <~ getattr stats "total_questions";
  total <~ to_str t;
  e <~ getattr stats "easy_count";
  easy <~ to_str e;
  m <~ getattr stats "medium_count";
  medium <~ to_str m;
  h <~ getattr stats "hard_count";
  hard <~ to_str h;
  Ok [ lit "    <tr" ++ Html.row_class i ++ lit ">";
       html_username_cell i name;
       html_cell total;
       html_cell easy;
       html_cell medium;
       html_cell hard;
       lit "    </tr>" ].

Definition html_present_stats (user_stats_list : list object) (days : Z)
    (completion_message : option str) : result str :=
  sorted_stats <~ sorted user_stats_list;
  d <~ int_to_str days;
  rows <~ sequence (imap html_row sorted_stats);
  Ok (join [newline]
        (Html.document_head
           ++ [ lit "<h1>LeetCode Statistics (Last " ++ d ++ lit " Days)</h1>";
                lit "<table>";
                lit "    <tr>";
                lit "        <th>Username</th>";
                lit "        <th>Total Questions</th>";
                lit "        <th>Easy</th>";
                lit "        <th>Medium</th>";
                lit "        <th>Hard</th>";
                lit "    </tr>" ]
           ++ mjoin rows
           ++ [lit "</table>"]
           ++ (if truthy completion_message
               then [Html.message_div (default [] completion_message)]
               else [])
           ++ [lit "</body>"; lit "</html>"])).

Definition present_stats (self : BasePresenter)
  : list object → Z → option str → result str :=
  match self with
  | TextPresenter => text_present_stats
  | HtmlPresenter => html_present_stats
  end.

(** A [UserStats] record as an object. *)
Definition of_stats (s : UserStats) : object :=
  <["username" := VStr (username s)]>
  (<["total_questions" := VInt (total_questions s)]>
  (<["easy_count" := VInt (easy_count s)]>
  (<["medium_count" := VInt (medium_count s)]>
  (<["hard_count" := VInt (hard_count s)]> ∅)))).

(** The keys that [<] can order among themselves: all of them integers,
    or all of them strings. *)
Definition is_int (v : value) : Prop := ∃ n, v = VInt n.
Definition is_str (v : value) : Prop := ∃ s, v = VStr s.

Definition orderable (keys : list value) : Prop :=
  Forall is_int keys ∨ Forall is_str keys.

(** A record with its key, as [sorted] pairs them. *)
Definition keyed (s : UserStats) : value * object :=
  (VInt (total_questions s), of_stats s).

(** The attributes the presenters read. *)
Definition required : list string :=
  ["username"; "total_questions"; "easy_count"; "medium_count";
   "hard_count"]%string.

(** An object lacks a required field. *)
Definition missing_field (o : object) : Prop :=
  ∃ name, name ∈ required ∧ o !! name = None.

(** An object has the shape of a [UserStats] record: a string for the
    user name, an integer for each count. *)
Definition well_shaped (o : object) : Prop :=
  (∃ s, o !! "username" = Some (VStr s))
  ∧ ∀ name, name ∈ ["total_questions"; "easy_count"; "medium_count";
                    "hard_count"]%string →
            ∃ n, o !! name = Some (VInt n).

(** The integers a call turns into strings are within the limit of the
    interpreter: the number of days and every integer attribute. *)
Definition value_within_limit (v : value) : Prop :=
  match v with
  | VInt n => within_digit_limit n = true
  | _ => True
  end.

Definition ints_within_limit (days : Z) (l : list object) : Prop :=
  within_digit_limit days = true
  ∧ ∀ o name v, o ∈ l → o !! name = Some v → value_within_limit v.

(** An object whose count of easy questions is a string. *)
Definition malformed_object : object :=
  <["easy_count" := VStr (lit "many")]> (of_stats (mkUserStats (lit "dave") 3 1 1 1)).

(** An object without the attribute [hard_count]. *)
Definition incomplete_object : object :=
  delete "hard_count" (of_stats (mkUserStats (lit "erin") 3 1 1 1)).

(** A number of days of 4301 digits. *)
Definition too_many_days : Z := 10 ^ 4300.

End Dyn.

(** ** The presenters on a store of objects

    Python passes the list and its records by reference, and a method
    could change them.  This part embeds the two methods on a store:
    [sorted] builds a new list, [output = []] and [html_parts = []] are
    new lists that [append] and [extend] change in place, and the report
    is joined from the parts at the end. *)

Module Heap.

Abbreviation loc := positive.

(** What a list holds: a reference to an object, or a string. *)
Inductive item : Type :=
| Ref (p : loc)
| Str (s : str).

Inductive obj : Type :=
| ObjList (items : list item)
| ObjStats (s : UserStats)
| ObjPresenter (cls : BasePresenter).

Abbreviation store := (gmap loc obj).

(** A computation on the store; [None] when a reference does not hold
    the kind of object the computation reads there. *)
Definition M (A : Type) : Type := store → option (A * store).

Definition ret {A : Type} (a : A) : M A := λ σ, Some (a, σ).

Definition bind {A B : Type} (m : M A) (k : A → M B) : M B :=
  λ σ, match m σ with
       | Some (a, σ') => k a σ'
       | None => None
       end.

Notation "x <~ m ; k" := (bind m (λ x, k))
  (at level 20, m at level 100, k at level 200, right associativity,
   format "'[' x  <~  m ;  '/' k ']'").
Notation "m ;; k" := (bind m (λ _, k))
  (at level 100, k at level 200, right associativity).

Fixpoint mapM {A B : Type} (f : A → M B) (l : list A) : M (list B) :=
  match l with
  | [] => ret []
  | a :: l' => b <~ f a; bs <~ mapM f l'; ret (b :: bs)
  end.

(** [for i, a in enumerate(l, start=i): f(i, a)]. *)
Fixpoint for_each {A : Type} (f : nat → A → M unit) (i : nat) (l : list A)
  : M unit :=
  match l with
  | [] => ret tt
  | a :: l' => f i a;; for_each f (S i) l'
  end.

(** A new object, at a location the store does not use. *)
Definition alloc (o : obj) : M loc :=
  λ σ, let p := fresh (dom σ) in Some (p, <[p := o]> σ).

Definition read_list (p : loc) : M (list item) :=
  λ σ, match σ !! p with
       | Some (ObjList items) => Some (items, σ)
       | _ => None
       end.

Definition read_stats (it : item) : M UserStats :=
  λ σ, match it with
       | Ref p => match σ !! p with
                  | Some (ObjStats s) => Some (s, σ)
                  | _ => None
                  end
       | Str _ => None
       end.

(** [p.extend(xs)] and [p.append(x)] change the list at [p] in place. *)
Definition extend (p : loc) (xs : list item) : M unit :=
  λ σ, match σ !! p with
       | Some (ObjList items) => Some (tt, <[p := ObjList (items ++ xs)]> σ)
       | _ => None
       end.

Definition append (p : loc) (x : item) : M unit := extend p [x].

Definition read_str (it : item) : M str :=
  λ σ, match it with
       | Str s => Some (s, σ)
       | Ref _ => None
       end.

(** [sep.join(p)] for a list of strings at [p]. *)
Definition join_list (sep : str) (p : loc) : M str :=
  items <~ read_list p;
  parts <~ mapM read_str items;
  ret (join sep parts).

(** [sorted(xs, key=lambda x: x.total_questions, reverse=True)]: reads the
    list and the key of every element, and returns a new list. *)
Definition sorted (xs : loc) : M loc :=
  items <~ read_list xs;
  keyed <~ mapM (λ it, s <~ read_stats it; ret (total_questions s, it)) items;
  alloc (ObjList (map snd (sorted_desc fst keyed))).

Definition text_present_stats (self user_stats_list : loc) (days : Z)
    (completion_message : option str) : M str :=
  output <~ alloc (ObjList []);
  sorted_stats <~ sorted user_stats_list;
  append output (Str (Text.title days));;
  append output (Str Text.rule);;
  append output (Str Text.column_header);;
  append output (Str Text.rule);;
  items <~ read_list sorted_stats;
  for_each (λ i it, stats <~ read_stats it;
                    append output (Str (Text.row i stats))) 0 items;;
  append output (Str Text.rule);;
  (if truthy completion_message
   then append output (Str (default [] completion_message))
   else ret tt);;
  join_list [newline] output.

Definition html_present_stats (self user_stats_list : loc) (days : Z)
    (completion_message : option str) : M str :=
  html_parts <~ alloc (ObjList []);
  sorted_stats <~ sorted user_stats_list;
  extend html_parts (map Str Html.document_head);;
  extend html_parts (map Str (Html.stats_header days));;
  items <~ read_list sorted_stats;
  for_each (λ i it, stats <~ read_stats it;
                    extend html_parts (map Str (Html.row i stats))) 0 items;;
  append html_parts (Str (lit "</table>"));;
  (if truthy completion_message
   then append html_parts
          (Str (Html.message_div (default [] completion_message)))
   else ret tt);;
  extend html_parts [Str (lit "</body>"); Str (lit "</html>")];;
  join_list [newline] html_parts.

(** The method of the presenter at [self]. *)
Definition present_stats (self user_stats_list : loc) (days : Z)
    (completion_message : option str) : M str :=
  λ σ, match σ !! self with
       | Some (ObjPresenter TextPresenter) =>
           text_present_stats self user_stats_list days completion_message σ
       | Some (ObjPresenter HtmlPresenter) =>
           html_present_stats self user_stats_list days completion_message σ
       | _ => None
       end.

(** [get_presenter] returns a new instance of the class. *)
Definition get_presenter (output_type : option str) : M loc :=
  alloc (ObjPresenter (get_presenter output_type)).

(** The list at [xs] holds references to the records [l], in this
    order. *)
Definition holds_stats (σ : store) (xs : loc) (l : list UserStats) : Prop :=
  ∃ ps : list loc,
    σ !! xs = Some (ObjList (map Ref ps))
    ∧ Forall2 (λ p s, σ !! p = Some (ObjStats s)) ps l.

(** The records of a list with their locations, in the order [sorted]
    gives them. *)
Definition ranked_refs (ps : list loc) (l : list UserStats)
  : list (loc * UserStats) :=
  sorted_desc (λ z, total_questions z.2) (zip ps l).

(** A store with a presenter at 1, two records at 2 and 3, and at 4 a
    list that holds the record at 3 twice and the record at 2. *)
Definition sample_store : store :=
  <[1%positive := ObjPresenter TextPresenter]>
  (<[2%positive := ObjStats (mkUserStats (lit "alice") 10 5 3 2)]>
  (<[3%positive := ObjStats (mkUserStats (lit "carol") 5 5 0 0)]>
  (<[4%positive := ObjList [Ref 3%positive; Ref 2%positive;
                            Ref 3%positive]]> ∅))).

End Heap.

(** * Notions used by the properties *)

(** The numbers of a record are within the limit of the interpreter. *)
Definition stats_within_limit (s : UserStats) : Prop :=
  within_digit_limit (total_questions s) = true
  ∧ within_digit_limit (easy_count s) = true
  ∧ within_digit_limit (medium_count s) = true
  ∧ within_digit_limit (hard_count s) = true.

(** ** The reports written out

    The string a presenter returns, from its first code point to its
    last, for records that are already in the order of the rows.  The
    literals are those of the source; [mark i] is what follows the user
    name in the row of rank [i]. *)

(** A line: the text and the newline that ends it. *)
Definition line (text : str) : str := text ++ [10%N].

Definition dashes : str :=
  lit "--------------------------------------------------------------------------------".

(** The medal of each rank, as the text report and the HTML report show
    it: a space and the glyph (U+1F947 gold, U+1F948 silver, U+1F949
    bronze), in HTML inside a span. *)
Definition text_medal (i : nat) : str :=
  match i with
  | 0%nat => [32%N; 0x1F947%N]
  | 1%nat => [32%N; 0x1F948%N]
  | 2%nat => [32%N; 0x1F949%N]
  | _ => []
  end.

Definition html_medal (i : nat) : str :=
  match i with
  | 0%nat => lit " <span class=" ++ [34%N] ++ lit "medal" ++ [34%N]
               ++ lit ">" ++ [0x1F947%N] ++ lit "</span>"
  | 1%nat => lit " <span class=" ++ [34%N] ++ lit "medal" ++ [34%N]
               ++ lit ">" ++ [0x1F948%N] ++ lit "</span>"
  | 2%nat => lit " <span class=" ++ [34%N] ++ lit "medal" ++ [34%N]
               ++ lit ">" ++ [0x1F949%N] ++ lit "</span>"
  | _ => []
  end.

Definition text_report_head (days : Z) : str :=
  line []
  ++ line (lit "LeetCode Statistics (Last " ++ str_of_int days ++ lit " Days)")
  ++ line dashes
  ++ line (lit "Username                  Total Questions Easy       Medium     Hard      ")
  ++ line dashes.

Definition text_report_row (mark : str) (s : UserStats) : str :=
  line (ljust 25 (username s ++ mark) ++ [32%N]
        ++ ljust 15 (str_of_int (total_questions s)) ++ [32%N]
        ++ ljust 10 (str_of_int (easy_count s)) ++ [32%N]
        ++ ljust 10 (str_of_int (medium_count s)) ++ [32%N]
        ++ ljust 10 (str_of_int (hard_count s))).

Definition text_report_tail (msg : option str) : str :=
  dashes
  ++ match msg with
     | Some (c :: m) => 10%N :: c :: m
     | _ => []
     end.

Definition text_report (mark : nat → str) (ranked : list UserStats)
    (days : Z) (msg : option str) : str :=
  text_report_head days
  ++ mjoin (imap (λ i s, text_report_row (mark i) s) ranked)
  ++ text_report_tail msg.

Definition html_report_head (days : Z) : str :=
  line (lit "<!DOCTYPE html>")
  ++ line (lit "<html>")
  ++ line (lit "<head>")
  ++ line (lit "    <meta charset='UTF-8'>")
  ++ line (lit "    <meta name='viewport' content='width=device-width, initial-scale=1.0'>")
  ++ line (lit "    <title>LeetCode Accountability Report</title>")
  ++ line (lit "    <style>")
  ++ line (lit "        body { font-family: Arial, sans-serif; margin: 20px; }")
  ++ line (lit "        h1 { color: #333; }")
  ++ line (lit "        table { border-collapse: collapse; width: 100%; margin-top: 20px; }")
  ++ line (lit "        th, td { padding: 12px; text-align: left; border-bottom: 1px solid #ddd; }")
  ++ line (lit "        th { background-color: #f2f2f2; }")
  ++ line (lit "        tr:hover { background-color: #f5f5f5; }")
  ++ line (lit "        .message { margin: 20px 0; padding: 15px; background-color: #f8f9fa; border-left: 5px solid #4285f4; }")
  ++ line (lit "        .first-place { font-weight: bold; }")
  ++ line (lit "        .medal { font-size: 1.2em; }")
  ++ line (lit "    </style>")
  ++ line (lit "</head>")
  ++ line (lit "<body>")
  ++ line (lit "<h1>LeetCode Statistics (Last " ++ str_of_int days
           ++ lit " Days)</h1>")
  ++ line (lit "<table>")
  ++ line (lit "    <tr>")
  ++ line (lit "        <th>Username</th>")
  ++ line (lit "        <th>Total Questions</th>")
  ++ line (lit "        <th>Easy</th>")
  ++ line (lit "        <th>Medium</th>")
  ++ line (lit "        <th>Hard</th>")
  ++ line (lit "    </tr>").

(** The seven lines of a row; [first] is true for the row of rank 0. *)
Definition html_report_row (first : bool) (mark : str) (s : UserStats) : str :=
  line (if first
        then lit "    <tr class=" ++ [34%N] ++ lit "first-place" ++ [34%N]
               ++ lit ">"
        else lit "    <tr>")
  ++ line (lit "        <td><a href=" ++ [34%N]
           ++ lit "https://leetcode.com/u/" ++ username s ++ lit "/"
           ++ [34%N] ++ lit " target=" ++ [34%N] ++ lit "_blank" ++ [34%N]
           ++ lit ">" ++ username s ++ lit "</a>" ++ mark ++ lit "</td>")
  ++ line (lit "        <td>" ++ str_of_int (total_questions s) ++ lit "</td>")
  ++ line (lit "        <td>" ++ str_of_int (easy_count s) ++ lit "</td>")
  ++ line (lit "        <td>" ++ str_of_int (medium_count s) ++ lit "</td>")
  ++ line (lit "        <td>" ++ str_of_int (hard_count s) ++ lit "</td>")
  ++ line (lit "    </tr>").

Definition html_report_tail (msg : option str) : str :=
  line (lit "</table>")
  ++ match msg with
     | Some (c :: m) => line (lit "<div class='message'>" ++ c :: m
                              ++ lit "</div>")
     | _ => []
     end
  ++ line (lit "</body>")
  ++ lit "</html>".

Definition html_report (mark : nat → str) (ranked : list UserStats)
    (days : Z) (msg : option str) : str :=
  html_report_head days
  ++ mjoin (imap (λ i s, html_report_row (bool_decide (i = 0%nat)) (mark i) s)
              ranked)
  ++ html_report_tail msg.

(** A string holds no newline. *)
Definition no_newline (s : str) : bool :=
  forallb (λ c : char, negb (c =? 10)%N) s.

(** The same, as a property of every code point. *)
Abbreviation one_line s := (Forall (λ c : char, c ≠ 10%N) s).

(** The lines of a report: the string cut at every newline, as
    [report.split("\n")] cuts it. *)
Fixpoint split_lines (s : str) : list str :=
  match s with
  | [] => [[]]
  | c :: s' =>
      if (c =? 10)%N then [] :: split_lines s'
      else match split_lines s' with
           | [] => [[c]]
           | first :: rest => (c :: first) :: rest
           end
  end.

Definition sample : list UserStats :=
  [ mkUserStats (lit "carol") 5 5 0 0;
    mkUserStats (lit "alice") 10 5 3 2;
    mkUserStats (lit "bob") 10 2 2 6 ].

(** A key is "html" up to case: four letters, each the lower-case letter
    of "html" at its place or the upper-case one (32 code points below). *)
Definition html_up_to_case (key : str) : Prop :=
  Forall2 (λ d c : char, c = d ∨ c = (d - 32)%N) (lit "html") key.

(** The canonical extension of each presenter. *)
Definition extension (self : BasePresenter) : str :=
  match self with
  | TextPresenter => lit ".txt"
  | HtmlPresenter => lit ".html"
  end.

(** Modelled from the spec: the source has no parser; the round-trip
    property reads a data row back by splitting the text row on the
    fixed-width column boundaries (25, 15, 10, 10 and 10 code points, one
    space between two columns) and by extracting the table cells of the
    HTML row.  A field is read as a decimal integer once its padding is
    removed. *)

Fixpoint unlit (s : str) : option string :=
  match s with
  | [] => Some EmptyString
  | c :: s' => if (c <? 256)%N then String (ascii_of_N c) <$> unlit s'
               else None
  end.

Definition int_of_str (s : str) : option Z :=
  s' ← unlit s; d ← NilZero.int_of_string s'; Some (Z.of_int d).

(** Removes the spaces at the end of a string. *)
Fixpoint rstrip (s : str) : str :=
  match s with
  | [] => []
  | c :: s' =>
      match rstrip s' with
      | [] => if (c =? space)%N then [] else [c]
      | r => c :: r
      end
  end.

(** The field of [width] code points that starts at column [start]. *)
Definition field (start width : nat) (line : str) : str :=
  rstrip (take width (drop start line)).

(** The numbers of a user, as a row shows them: total, easy, medium, hard. *)
Definition numbers (s : UserStats) : Z * Z * Z * Z :=
  (total_questions s, easy_count s, medium_count s, hard_count s).

Definition text_parse_row (line : str) : option (Z * Z * Z * Z) :=
  t ← int_of_str (field 26 15 line);
  e ← int_of_str (field 42 10 line);
  m ← int_of_str (field 53 10 line);
  h ← int_of_str (field 64 10 line);
  Some (t, e, m, h).

(** The content of a table cell: the line without the opening and the
    closing tag. *)
Definition cell_content (line : str) : option str :=
  let open := lit "        <td>" in
  let close := lit "</td>" in
  if bool_decide (take (length open) line = open) && endswith line close
  then Some (take (length line - length open - length close)
               (drop (length open) line))
  else None.

Definition html_parse_row (row : list str) : option (Z * Z * Z * Z) :=
  match row with
  | [_; _; t; e; m; h; _] =>
      t ← cell_content t ≫= int_of_str;
      e ← cell_content e ≫= int_of_str;
      m ← cell_content m ≫= int_of_str;
      h ← cell_content h ≫= int_of_str;
      Some (t, e, m, h)
  | _ => None
  end.

(** A row fits its columns when the displayed user name and the four
    numbers are no wider than their fields. *)
Definition fits_columns (i : nat) (s : UserStats) : Prop :=
  (length (Text.username_display i s) ≤ 25)%nat
  ∧ (length (str_of_int (total_questions s)) ≤ 15)%nat
  ∧ (length (str_of_int (easy_count s)) ≤ 10)%nat
  ∧ (length (str_of_int (medium_count s)) ≤ 10)%nat
  ∧ (length (str_of_int (hard_count s)) ≤ 10)%nat.

(** The same, with the displayed user name written out: the user name
    and the medal of the rank. *)
Definition within_columns (i : nat) (s : UserStats) : Prop :=
  (length (username s ++ text_medal i) ≤ 25)%nat
  ∧ (length (str_of_int (total_questions s)) ≤ 15)%nat
  ∧ (length (str_of_int (easy_count s)) ≤ 10)%nat
  ∧ (length (str_of_int (medium_count s)) ≤ 10)%nat
  ∧ (length (str_of_int (hard_count s)) ≤ 10)%nat.

(** A user whose name is longer than the user-name column. *)
Definition long_name_user : UserStats :=
  mkUserStats (lit "a_very_long_leetcode_username_123") 5 2 2 1.

(** A user whose name holds a newline. *)
Definition two_line_user : UserStats :=
  mkUserStats (lit "a" ++ [10%N] ++ lit "b") 5 2 2 1.

(** A user whose name holds four lines that look like table cells. *)
Definition cell_injecting_user : UserStats :=
  mkUserStats
    (lit "x" ++ [10%N] ++ lit "        <td>9</td>"
       ++ [10%N] ++ lit "        <td>9</td>"
       ++ [10%N] ++ lit "        <td>9</td>"
       ++ [10%N] ++ lit "        <td>9</td>"
       ++ [10%N] ++ lit "y") 5 2 2 1.

(** * Further notions *)

(** The path the presenter [self] writes to. *)
Definition target (self : BasePresenter) : str → str :=
  match self with
  | TextPresenter => Text.target
  | HtmlPresenter => Html.target
  end.

(** ** Notions on arbitrary objects *)

(** An object has every attribute the presenters read. *)
Definition complete (o : Dyn.object) : Prop :=
  ∀ name, name ∈ Dyn.required → is_Some (o !! name).

(** The values of [total_questions] of the objects that have one. *)
Definition totals (l : list Dyn.object) : list Dyn.value :=
  omap (λ o : Dyn.object, o !! "total_questions") l.

(** The attributes formatted as counts. *)
Definition counts : list string :=
  ["total_questions"; "easy_count"; "medium_count"; "hard_count"]%string.

(** The attributes the presenters read that are integers can be turned
    into strings: they are within the limit of the interpreter. *)
Definition printable (o : Dyn.object) : Prop :=
  ∀ name v, name ∈ Dyn.required → o !! name = Some v →
            Dyn.value_within_limit v.

(** Two objects whose totals are an integer and a string. *)
Definition mixed_totals : list Dyn.object :=
  [ Dyn.of_stats (mkUserStats (lit "frank") 3 1 1 1);
    <["total_questions" := Dyn.VStr (lit "3")]>
      (Dyn.of_stats (mkUserStats (lit "grace") 3 1 1 1)) ].

(** A record with more hard questions than the interpreter prints. *)
Definition too_many_hard : list Dyn.object :=
  [ <["hard_count" := Dyn.VInt Dyn.too_many_days]>
      (Dyn.of_stats (mkUserStats (lit "heidi") 3 1 1 1)) ].
(** * Properties *)

(** ** The sort *)

Section SortedFacts.
Context {A : Type} (key : A → Z).

Lemma insert_desc_perm x l : insert_desc key x l ≡ₚ x :: l.
Proof.
  induction l as [|y l IH]; simpl; [done|].
  destruct (key y <=? key x); [done|].
  rewrite IH. apply Permutation_swap.
Qed.

Lemma sorted_desc_perm l : sorted_desc key l ≡ₚ l.
Proof.
  induction l as [|x l IH]; simpl; [done|].
  by rewrite insert_desc_perm, IH.
Qed.

Lemma sorted_desc_length l : length (sorted_desc key l) = length l.
Proof. apply Permutation_length, sorted_desc_perm. Qed.

Lemma insert_desc_sorted x l :
  StronglySorted (descending key) l → StronglySorted (descending key) (insert_desc key x l).
Proof.
  induction 1 as [|y l Hs IH Hy]; simpl.
  - repeat constructor.
  - destruct (Z.leb_spec (key y) (key x)) as [Hle|Hgt].
    + constructor; [by constructor|].
      constructor; [done|].
      eapply Forall_impl; [exact Hy|].
      unfold descending. intros; lia.
    + constructor; [done|].
      rewrite insert_desc_perm. constructor; [|done].
      unfold descending. lia.
Qed.

Lemma sorted_desc_sorted l : StronglySorted (descending key) (sorted_desc key l).
Proof.
  induction l as [|x l IH]; simpl; [constructor|].
  by apply insert_desc_sorted.
Qed.

(** Inserting does not disturb the order of the elements of one key. *)
Lemma insert_desc_filter k x l :
  filter (λ a, key a = k) (insert_desc key x l)
  = filter (λ a, key a = k) (x :: l).
Proof.
  induction l as [|y l IH]; simpl; [done|].
  destruct (Z.leb_spec (key y) (key x)) as [Hle|Hgt]; [done|].
  rewrite filter_cons, IH, !filter_cons.
  repeat case_decide; try done; lia.
Qed.

Lemma sorted_desc_stable k l :
  filter (λ a, key a = k) (sorted_desc key l) = filter (λ a, key a = k) l.
Proof.
  induction l as [|x l IH]; simpl; [done|].
  by rewrite insert_desc_filter, !filter_cons, IH.
Qed.
End SortedFacts.

(** ** Where the data rows are in the two reports *)

Lemma text_output_rows l days msg :
  take (length l) (drop 4 (Text.output l days msg))
  = imap Text.row (sorted_desc total_questions l).
Proof.
  unfold Text.output. cbn [app skipn]. rewrite drop_0.
  rewrite take_app_length'; [done|].
  by rewrite length_imap, sorted_desc_length.
Qed.

Lemma html_row_length i s : length (Html.row i s) = 7%nat.
Proof. done. Qed.

Lemma html_parts_rows l days msg :
  take (7 * length l) (drop 28 (Html.html_parts l days msg))
  = mjoin (imap Html.row (sorted_desc total_questions l)).
Proof.
  unfold Html.html_parts. cbn [app skipn Html.document_head Html.stats_header]. rewrite drop_0.
  rewrite take_app_length'; [done|].
  rewrite length_join, <- (sorted_desc_length total_questions l).
  generalize (sorted_desc total_questions l) as r. intros r.
  generalize Html.row, html_row_length. intros f Hf.
  revert f Hf. induction r as [|x r IH]; intros f Hf; [done|].
  rewrite imap_cons, fmap_cons. cbn [sum_list sum_list_with length].
  unfold id. rewrite Hf, <- IH; [lia|]. intros; apply Hf.
Qed.

Lemma text_output_lookup l days msg i s :
  sorted_desc total_questions l !! i = Some s →
  Text.output l days msg !! (4 + i)%nat = Some (Text.row i s).
Proof.
  intros Hi. unfold Text.output. cbn [app lookup list_lookup Nat.add].
  apply lookup_app_l_Some. by rewrite list_lookup_imap, Hi.
Qed.

Lemma html_parts_lookup l days msg i j s :
  sorted_desc total_questions l !! i = Some s →
  (j < 7)%nat →
  Html.html_parts l days msg !! (28 + (i * 7 + j))%nat = Html.row i s !! j.
Proof.
  intros Hi Hj. unfold Html.html_parts.
  cbn [app lookup list_lookup Nat.add Html.document_head Html.stats_header].
  destruct (lookup_lt_is_Some_2 (Html.row i s) j) as [x Hx]; [by simpl|].
  rewrite Hx. apply lookup_app_l_Some.
  apply (join_lookup_Some_same_length' 7); [|done|].
  - apply Forall_forall. intros r Hr.
    apply elem_of_lookup_imap_1 in Hr as (?&?&->&_). done.
  - exists (Html.row i s). by rewrite list_lookup_imap, Hi.
Qed.

(** The example of the specification: alice and bob have the same total
    and keep the order in which they are given. *)
Example ranking_example :
  let alice := mkUserStats (lit "alice") 10 5 3 2 in
  let bob := mkUserStats (lit "bob") 10 2 2 6 in
  let carol := mkUserStats (lit "carol") 5 5 0 0 in
  sorted_desc total_questions [alice; bob; carol] = [alice; bob; carol]
  ∧ sorted_desc total_questions [carol; bob; alice] = [bob; alice; carol].
Proof. done. Qed.

(** ** The factory *)

Lemma lower_char_letter (c d : char) :
  (97 ≤ d ≤ 122)%N → lower_char c = d ↔ c = d ∨ c = (d - 32)%N.
Proof.
  intros Hd. unfold lower_char.
  destruct (N.leb_spec 65 c), (N.leb_spec c 90); simpl; lia.
Qed.

Lemma lit_html : lit "html" = [104; 116; 109; 108]%N.
Proof. reflexivity. Qed.

Lemma lower_html_iff (key : str) :
  lower key = lit "html" ↔ html_up_to_case key.
Proof.
  unfold html_up_to_case, lower. rewrite lit_html. split.
  - destruct key as [|a [|b [|c [|d [|e key]]]]]; try discriminate.
    intros [= Ha Hb Hc Hd].
    apply lower_char_letter in Ha, Hb, Hc, Hd; try lia.
    repeat first [apply Forall2_nil_2 | apply Forall2_cons_2]; assumption.
  - intros H.
    apply Forall2_cons_inv_l in H as (a & k1 & Ha & H & ->).
    apply Forall2_cons_inv_l in H as (b & k2 & Hb & H & ->).
    apply Forall2_cons_inv_l in H as (c & k3 & Hc & H & ->).
    apply Forall2_cons_inv_l in H as (d & k4 & Hd & H & ->).
    apply Forall2_nil_inv_l in H as ->.
    apply lower_char_letter in Ha, Hb, Hc, Hd; try lia.
    simpl. by rewrite Ha, Hb, Hc, Hd.
Qed.

(** C4: the factory returns the HTML presenter exactly for the keys that
    are "html" up to case, the text presenter for every other key and for
    the call without a key; it returns a presenter for every key. *)
Theorem get_presenter_html_iff :
  (∀ key : str, get_presenter (Some key) = HtmlPresenter ↔ html_up_to_case key)
  ∧ (∀ key : str,
       get_presenter (Some key) = TextPresenter ↔ ¬ html_up_to_case key)
  ∧ get_presenter None = TextPresenter.
Proof.
  split; [|split; [|done]]; intros key; unfold get_presenter; simpl default;
    rewrite <- lower_html_iff; case_bool_decide; naive_solver.
Qed.

(** ** Writing the report to a file *)

Lemma endswith_suffix (s suffix : str) :
  endswith s suffix = true ↔ suffix `suffix_of` s.
Proof.
  unfold endswith. rewrite bool_decide_eq_true. split.
  - intros [Hd _]. exists (take (length s - length suffix) s).
    rewrite <- Hd at 2. by rewrite take_drop.
  - intros [k ->]. rewrite length_app. split; [|lia].
    replace (length k + length suffix - length suffix)%nat with (length k)
      by lia.
    by rewrite drop_app_length.
Qed.

(** C5: [write_to_file] writes to the file name itself when it already
    ends with the presenter's extension and to the file name followed by
    the extension otherwise; afterwards that file holds exactly the
    content, whatever it held before, and no other file has changed. *)
Theorem write_to_file_extension (self : BasePresenter)
    (filename content : str) (fs : filesystem) :
  ∃ path : str,
    path = (if decide (extension self `suffix_of` filename) then filename
            else filename ++ extension self)
    ∧ write_to_file self filename content fs !! path = Some content
    ∧ ∀ other : str,
        other ≠ path →
        write_to_file self filename content fs !! other = fs !! other.
Proof.
  assert (∀ ext, (if endswith filename ext then filename else filename ++ ext)
                 = (if decide (ext `suffix_of` filename) then filename
                    else filename ++ ext)) as Hpath.
  { intros ext. case_decide as Hs.
    - apply endswith_suffix in Hs. by rewrite Hs.
    - destruct (endswith filename ext) eqn:E; [|done].
      by apply endswith_suffix in E. }
  eexists; split; [reflexivity|].
  destruct self; simpl;
    unfold Text.write_to_file, Text.target, Html.write_to_file, Html.target;
    rewrite Hpath; split; [apply lookup_insert_eq| |apply lookup_insert_eq|];
    intros other Hne; by apply lookup_insert_ne.
Qed.

Example write_report_txt (content : str) (fs : filesystem) :
  write_to_file TextPresenter (lit "report") content fs
  = <[lit "report.txt" := content]> fs
  ∧ write_to_file TextPresenter (lit "report.txt") content fs
    = <[lit "report.txt" := content]> fs
  ∧ write_to_file HtmlPresenter (lit "report") content fs
    = <[lit "report.html" := content]> fs.
Proof. done. Qed.

(** ** The completion message *)

Lemma join_snoc (sep : str) (parts : list str) (p : str) :
  parts ≠ [] → join sep (parts ++ [p]) = join sep parts ++ sep ++ p.
Proof.
  induction parts as [|q parts IH]; [done|]. intros _.
  destruct parts as [|r parts]; [done|].
  change (join sep ((q :: r :: parts) ++ [p]))
    with (q ++ sep ++ join sep ((r :: parts) ++ [p])).
  rewrite IH by done.
  change (join sep (q :: r :: parts)) with (q ++ sep ++ join sep (r :: parts)).
  by rewrite <- !app_assoc.
Qed.

Lemma join_suffix (sep : str) (parts : list str) (p : str) :
  p `suffix_of` join sep (parts ++ [p]).
Proof.
  destruct parts as [|q parts]; [done|].
  rewrite join_snoc by done. rewrite app_assoc. by eexists.
Qed.

Lemma text_output_no_message l days msg :
  truthy msg = false →
  Text.output l days msg
  = ([Text.title days; Text.rule; Text.column_header; Text.rule]
       ++ imap Text.row (sorted_desc total_questions l)) ++ [Text.rule].
Proof.
  intros Hm. unfold Text.output. rewrite Hm. by rewrite app_nil_r, app_assoc.
Qed.

(** C8, as amended: when a non-empty completion message is given, the
    text report is the report without a message, which ends with the
    closing rule, followed by a newline and the message as it is; when no
    message is given the report ends with the closing rule. *)
Theorem text_message_last (l : list UserStats) (days : Z) (m : str) :
  m ≠ [] →
  Text.present_stats l days (Some m)
  = Text.present_stats l days None ++ [newline] ++ m
  ∧ Text.rule `suffix_of` Text.present_stats l days None
  ∧ last (Text.output l days (Some m)) = Some m
  ∧ last (Text.output l days None) = Some Text.rule.
Proof.
  intros Hm. unfold Text.present_stats.
  rewrite (text_output_no_message l days None) by done.
  assert (Text.output l days (Some m)
          = (([Text.title days; Text.rule; Text.column_header; Text.rule]
               ++ imap Text.row (sorted_desc total_questions l))
               ++ [Text.rule]) ++ [m]) as ->.
  { unfold Text.output. destruct m; [done|]. simpl truthy. cbn [default].
    by rewrite !app_assoc. }
  split; [by apply join_snoc; destruct l|].
  split; [apply join_suffix|].
  by rewrite !last_snoc.
Qed.

Lemma text_message_last_witness :
  Text.present_stats sample 7 (Some (lit "done"))
  = Text.present_stats sample 7 None ++ [newline] ++ lit "done"
  ∧ Text.rule `suffix_of` Text.present_stats sample 7 None
  ∧ last (Text.output sample 7 (Some (lit "done"))) = Some (lit "done")
  ∧ last (Text.output sample 7 None) = Some Text.rule.
Proof. apply (text_message_last sample 7 (lit "done")). discriminate. Defined.

(** C8, as stated, fails for the empty message: the report does not end
    with a newline and the (empty) message, its last line is the rule. *)
Lemma text_empty_message_not_appended :
  Text.present_stats [] 7 (Some [])
  ≠ Text.present_stats [] 7 None ++ [newline] ++ []
  ∧ last (Text.output [] 7 (Some [])) ≠ Some [].
Proof. split; discriminate. Qed.

(** C10: an empty completion message is treated as no message, by both
    presenters: the lines and the report are those of the call without a
    message, whose text ends with the rule and whose HTML closes the body
    right after the table. *)
Theorem empty_message_as_none (l : list UserStats) (days : Z) :
  Text.output l days (Some []) = Text.output l days None
  ∧ Html.html_parts l days (Some []) = Html.html_parts l days None
  ∧ present_stats TextPresenter l days (Some [])
    = present_stats TextPresenter l days None
  ∧ present_stats HtmlPresenter l days (Some [])
    = present_stats HtmlPresenter l days None
  ∧ last (Text.output l days (Some [])) = Some Text.rule
  ∧ Html.html_parts l days (Some [])
    = Html.document_head ++ Html.stats_header days
        ++ mjoin (imap Html.row (sorted_desc total_questions l))
        ++ [lit "</table>"; lit "</body>"; lit "</html>"].
Proof.
  repeat split.
  rewrite (text_output_no_message l days (Some [])) by done.
  apply last_snoc.
Qed.

(** ** Reading the numbers back from a row *)

Lemma unlit_lit (s : string) : unlit (lit s) = Some s.
Proof.
  induction s as [|a s IH]; [done|]. simpl.
  pose proof (N_ascii_bounded a) as Ha.
  destruct (N.ltb_spec (N_of_ascii a) 256); [|lia].
  by rewrite IH, ascii_N_embedding.
Qed.

Lemma int_of_str_of_int (n : Z) : int_of_str (str_of_int n) = Some n.
Proof.
  unfold int_of_str, str_of_int. rewrite unlit_lit. simpl.
  rewrite NilZero.isi.
  - simpl. by rewrite DecimalZ.of_to.
  - destruct n; simpl; try discriminate.
    intros [= H]. by apply Unsigned.to_uint_nonnil in H.
  - destruct n; simpl; try discriminate.
    intros [= H]. by apply Unsigned.to_uint_nonnil in H.
Qed.

Lemma uint_no_space d :
  Forall (λ c : char, c ≠ space) (lit (NilEmpty.string_of_uint d)).
Proof. induction d; simpl; constructor; done. Qed.

Lemma str_of_int_no_space (n : Z) :
  Forall (λ c : char, c ≠ space) (str_of_int n).
Proof.
  unfold str_of_int.
  assert (∀ d, Forall (λ c : char, c ≠ space) (lit (NilZero.string_of_uint d)))
    as Hu.
  { intros d. pose proof (uint_no_space d). destruct d; try done.
    by constructor. }
  destruct (Z.to_int n); simpl; [apply Hu|].
  constructor; [done | apply Hu].
Qed.

Lemma rstrip_padding (s : str) (k : nat) :
  Forall (λ c : char, c ≠ space) s → rstrip (s ++ replicate k space) = s.
Proof.
  induction 1 as [|c s Hc Hs IH]; simpl.
  - induction k as [|k IHk]; [done|]. simpl. by rewrite IHk.
  - rewrite IH. destruct s; [|done].
    by destruct (N.eqb_spec c space).
Qed.

Lemma length_ljust (w : nat) (s : str) :
  (length s ≤ w)%nat → length (ljust w s) = w.
Proof. intros. unfold ljust. rewrite length_app, length_replicate. lia. Qed.

Lemma field_skip (w0 : nat) (s0 : str) (start w : nat) (line : str) :
  (length s0 ≤ w0)%nat →
  field (S w0 + start) w (ljust w0 s0 ++ space :: line) = field start w line.
Proof.
  intros H0. unfold field. f_equal. f_equal.
  replace (S w0 + start)%nat with (w0 + S start)%nat by lia.
  rewrite <- drop_drop, drop_app_length'; [done|].
  symmetry. by apply length_ljust.
Qed.

Lemma field_here (w : nat) (s rest : str) :
  (length s ≤ w)%nat → Forall (λ c : char, c ≠ space) s →
  field 0 w (ljust w s ++ rest) = s.
Proof.
  intros Hw Hs. unfold field. rewrite drop_0.
  rewrite take_app_length' by (symmetry; by apply length_ljust).
  by apply rstrip_padding.
Qed.

Lemma text_parse_row_fits (i : nat) (s : UserStats) :
  fits_columns i s → text_parse_row (Text.row i s) = Some (numbers s).
Proof.
  intros (Hu & Ht & He & Hm & Hh).
  unfold text_parse_row, Text.row.
  change (field 26) with (field (S 25 + 0)).
  change (field 42) with (field (S 25 + (S 15 + 0))).
  change (field 53) with (field (S 25 + (S 15 + (S 10 + 0)))).
  change (field 64) with (field (S 25 + (S 15 + (S 10 + (S 10 + 0))))).
  rewrite <- (app_nil_r (ljust 10 (str_of_int (hard_count s)))).
  rewrite !field_skip, !field_here, !int_of_str_of_int
    by auto using str_of_int_no_space.
  done.
Qed.

Lemma cell_content_cell (n : Z) :
  cell_content (Html.cell n) = Some (str_of_int n).
Proof.
  unfold cell_content, Html.cell.
  generalize (lit "        <td>") (lit "</td>") (str_of_int n).
  intros open close x.
  rewrite take_app_length, bool_decide_eq_true_2 by done.
  replace (endswith (open ++ x ++ close) close) with true.
  2: { symmetry. apply endswith_suffix. exists (open ++ x).
       by rewrite app_assoc. }
  simpl. f_equal. rewrite drop_app_length, !length_app.
  replace (length open + (length x + length close) - length open
           - length close)%nat with (length x) by lia.
  by rewrite take_app_length.
Qed.

Lemma html_parse_row_row (i : nat) (s : UserStats) :
  html_parse_row (Html.row i s) = Some (numbers s).
Proof.
  unfold html_parse_row, Html.row.
  rewrite !cell_content_cell. simpl. by rewrite !int_of_str_of_int.
Qed.

Lemma html_parts_row l days msg i s :
  sorted_desc total_questions l !! i = Some s →
  take 7 (drop (28 + i * 7) (Html.html_parts l days msg)) = Html.row i s.
Proof.
  intros Hi. apply list_eq. intros j.
  destruct (decide (j < 7)%nat) as [Hj|Hj].
  - rewrite lookup_take_lt, lookup_drop by done.
    rewrite <- Nat.add_assoc. by apply html_parts_lookup.
  - rewrite lookup_take_ge by lia. symmetry.
    apply lookup_ge_None. simpl. lia.
Qed.

(** ** The presenters on a store of objects *)

Section HeapFacts.

(** The sort commutes with a map that keeps the keys. *)
Lemma sorted_desc_map {A B : Type} (keyA : A → Z) (keyB : B → Z)
    (g : A → B) (l : list A) :
  (∀ a, keyB (g a) = keyA a) →
  sorted_desc keyB (map g l) = map g (sorted_desc keyA l).
Proof.
  intros Hk. induction l as [|x l IH]; [done|]. simpl. rewrite IH.
  generalize (sorted_desc keyA l) as r. intros r.
  induction r as [|y r IHr]; [done|]. simpl. rewrite !Hk.
  destruct (keyA y <=? keyA x); [done|]. simpl. by rewrite IHr.
Qed.

Lemma mjoin_imap_singleton {A B : Type} (f : nat → A → B) (l : list A) :
  mjoin (imap (λ i a, [f i a]) l) = imap f l.
Proof.
  revert f. induction l as [|a l IH]; intros f; [done|].
  rewrite !imap_cons. simpl. f_equal. apply (IH (f ∘ S)).
Qed.

Lemma bind_Some {A B : Type} (m : Heap.M A) (k : A → Heap.M B) σ a σ' :
  m σ = Some (a, σ') → Heap.bind m k σ = k a σ'.
Proof. unfold Heap.bind. by intros ->. Qed.

Lemma mapM_read_str (parts : list str) (σ : Heap.store) :
  Heap.mapM Heap.read_str (map Heap.Str parts) σ = Some (parts, σ).
Proof.
  induction parts as [|p parts IH]; [done|]. simpl.
  unfold Heap.bind at 1. simpl. unfold Heap.bind at 1. by rewrite IH.
Qed.

Section Output.
(** The list under construction lives at [po], the rest of the store is
    [m]. *)
Context (po : Heap.loc) (m : Heap.store).

Lemma extend_output (acc xs : list Heap.item) :
  Heap.extend po xs (<[po := Heap.ObjList acc]> m)
  = Some (tt, <[po := Heap.ObjList (acc ++ xs)]> m).
Proof.
  unfold Heap.extend. by rewrite lookup_insert_eq, insert_insert_eq.
Qed.

Lemma extend_strs (acc xs : list str) :
  Heap.extend po (map Heap.Str xs) (<[po := Heap.ObjList (map Heap.Str acc)]> m)
  = Some (tt, <[po := Heap.ObjList (map Heap.Str (acc ++ xs))]> m).
Proof. by rewrite extend_output, map_app. Qed.

Lemma append_str (acc : list str) (x : str) :
  Heap.append po (Heap.Str x) (<[po := Heap.ObjList (map Heap.Str acc)]> m)
  = Some (tt, <[po := Heap.ObjList (map Heap.Str (acc ++ [x]))]> m).
Proof. apply (extend_strs acc [x]). Qed.

Lemma append_str_if (b : bool) (acc : list str) (x : str) :
  (if b then Heap.append po (Heap.Str x) else Heap.ret tt)
    (<[po := Heap.ObjList (map Heap.Str acc)]> m)
  = Some (tt, <[po := Heap.ObjList
                        (map Heap.Str (acc ++ (if b then [x] else [])))]> m).
Proof. destruct b; [apply append_str|]. by rewrite app_nil_r. Qed.

Lemma read_stats_output (o : Heap.obj) (p : Heap.loc) (s : UserStats) :
  p ≠ po → m !! p = Some (Heap.ObjStats s) →
  Heap.read_stats (Heap.Ref p) (<[po := o]> m) = Some (s, <[po := o]> m).
Proof.
  intros Hne Hp. unfold Heap.read_stats.
  by rewrite lookup_insert_ne, Hp.
Qed.

Lemma read_list_output (o : Heap.obj) (p : Heap.loc) items :
  p ≠ po → m !! p = Some (Heap.ObjList items) →
  Heap.read_list p (<[po := o]> m) = Some (items, <[po := o]> m).
Proof.
  intros Hne Hp. unfold Heap.read_list.
  by rewrite lookup_insert_ne, Hp.
Qed.

Lemma join_list_output (sep : str) (parts : list str) :
  Heap.join_list sep po (<[po := Heap.ObjList (map Heap.Str parts)]> m)
  = Some (join sep parts, <[po := Heap.ObjList (map Heap.Str parts)]> m).
Proof.
  unfold Heap.join_list.
  erewrite bind_Some
    by (unfold Heap.read_list; by rewrite lookup_insert_eq).
  erewrite bind_Some by apply mapM_read_str. done.
Qed.

(** The loop over the sorted list adds the parts of every record, in
    the order of the list, and changes nothing else. *)
Lemma for_each_output (f : nat → UserStats → list str)
    (zs : list (Heap.loc * UserStats)) (i : nat) (acc : list str) :
  Forall (λ z, z.1 ≠ po ∧ m !! z.1 = Some (Heap.ObjStats z.2)) zs →
  Heap.for_each
    (λ i it, Heap.bind (Heap.read_stats it)
               (λ stats, Heap.extend po (map Heap.Str (f i stats))))
    i (map (λ z, Heap.Ref z.1) zs)
    (<[po := Heap.ObjList (map Heap.Str acc)]> m)
  = Some (tt, <[po := Heap.ObjList
                        (map Heap.Str
                           (acc ++ mjoin (imap (λ j z, f (i + j)%nat z.2) zs)))]>
                m).
Proof.
  intros Hzs. revert i acc.
  induction Hzs as [|[p s] zs [Hne Hp] _ IH]; intros i acc.
  - simpl. by rewrite app_nil_r.
  - cbn [map Heap.for_each fst snd].
    erewrite bind_Some.
    2: { erewrite bind_Some by (by apply read_stats_output).
         apply extend_output. }
    rewrite <- map_app, IH, imap_cons. cbn [mjoin list_join fst snd].
    rewrite Nat.add_0_r, <- app_assoc. do 7 f_equal.
    apply (f_equal mjoin), imap_ext. intros j z _. simpl. f_equal. lia.
Qed.
End Output.

Lemma mapM_read_keys (σ : Heap.store) (zs : list (Heap.loc * UserStats)) :
  Forall (λ z, σ !! z.1 = Some (Heap.ObjStats z.2)) zs →
  Heap.mapM (λ it, Heap.bind (Heap.read_stats it)
                     (λ s, Heap.ret (total_questions s, it)))
    (map (λ z, Heap.Ref z.1) zs) σ
  = Some (map (λ z, (total_questions z.2, Heap.Ref z.1)) zs, σ).
Proof.
  induction 1 as [|[p s] zs Hp _ IH]; [done|].
  cbn [map Heap.mapM fst snd].
  erewrite bind_Some.
  2: { erewrite bind_Some; [reflexivity|].
       unfold Heap.read_stats. simpl in Hp. by rewrite Hp. }
  erewrite bind_Some by apply IH. done.
Qed.

Lemma Forall2_zip {A B : Type} (P : A → B → Prop) (l : list A) (k : list B) :
  Forall2 P l k → Forall (λ z, P z.1 z.2) (zip l k).
Proof. induction 1; simpl; by constructor. Qed.

Lemma ranked_refs_stats ps l :
  length ps = length l →
  map snd (Heap.ranked_refs ps l) = sorted_desc total_questions l.
Proof.
  intros Hlen. unfold Heap.ranked_refs.
  rewrite <- (sorted_desc_map (λ z, total_questions z.2) total_questions)
    by done.
  f_equal. apply snd_zip. lia.
Qed.

Lemma ranked_refs_Forall (P : Heap.loc * UserStats → Prop) ps l :
  Forall P (zip ps l) → Forall P (Heap.ranked_refs ps l).
Proof.
  intros H. unfold Heap.ranked_refs.
  by rewrite (sorted_desc_perm (λ z, total_questions z.2)).
Qed.

Lemma sorted_new_list (σ : Heap.store) (xs : Heap.loc) ps l :
  σ !! xs = Some (Heap.ObjList (map Heap.Ref ps)) →
  Forall2 (λ p s, σ !! p = Some (Heap.ObjStats s)) ps l →
  Heap.sorted xs σ
  = Some (fresh (dom σ),
          <[fresh (dom σ) :=
              Heap.ObjList (map (λ z, Heap.Ref z.1) (Heap.ranked_refs ps l))]> σ).
Proof.
  intros Hxs Hps. unfold Heap.sorted.
  pose proof (Forall2_length _ _ _ Hps) as Hlen.
  assert (map Heap.Ref ps = map (λ z, Heap.Ref z.1) (zip ps l)) as Hrefs.
  { rewrite <- (map_map fst Heap.Ref). f_equal. symmetry.
    apply fst_zip. lia. }
  erewrite bind_Some
    by (unfold Heap.read_list; rewrite Hxs, Hrefs; reflexivity).
  erewrite bind_Some
    by (apply mapM_read_keys;
        exact (Forall2_zip (λ p s, σ !! p = Some (Heap.ObjStats s)) _ _ Hps)).
  unfold Heap.alloc. cbv zeta. do 4 f_equal.
  unfold Heap.ranked_refs.
  rewrite (sorted_desc_map (λ z, total_questions z.2) fst) by done.
  by rewrite map_map.
Qed.

Lemma rows_of_ranked (f : nat → UserStats → list str) ps l :
  length ps = length l →
  mjoin (imap (λ j z, f (0 + j)%nat z.2) (Heap.ranked_refs ps l))
  = mjoin (imap f (sorted_desc total_questions l)).
Proof.
  intros Hlen. rewrite <- (ranked_refs_stats ps l Hlen), imap_fmap.
  f_equal.
Qed.

(** The stores a call goes through: the new list of parts at [po], the
    new sorted list at [ps'], and the store [m] around the list of
    parts. *)
(** The list [sorted] returns is a new object: the list it was given is
    still in the store, at another location. *)
Lemma sorted_fresh_copy (σ : Heap.store) (xs : Heap.loc) ps l :
  σ !! xs = Some (Heap.ObjList (map Heap.Ref ps)) →
  Forall2 (λ p s, σ !! p = Some (Heap.ObjStats s)) ps l →
  ∃ p σ', Heap.sorted xs σ = Some (p, σ')
          ∧ σ !! p = None
          ∧ σ' !! xs = Some (Heap.ObjList (map Heap.Ref ps)).
Proof.
  intros Hxs Hps. eexists _, _.
  split; [by apply (sorted_new_list σ xs ps l)|].
  assert (σ !! fresh (dom σ) = None) as Hnew
    by apply not_elem_of_dom, is_fresh.
  split; [done|]. rewrite lookup_insert_ne; [done|]. congruence.
Qed.

Lemma call_stores (σ : Heap.store) (xs : Heap.loc) ps l :
  σ !! xs = Some (Heap.ObjList (map Heap.Ref ps)) →
  Forall2 (λ p s, σ !! p = Some (Heap.ObjStats s)) ps l →
  let po := fresh (dom σ) in
  ∃ (ps' : Heap.loc) (m : Heap.store),
    Heap.sorted xs (<[po := Heap.ObjList []]> σ)
    = Some (ps', <[po := Heap.ObjList (map Heap.Str [])]> m)
    ∧ ps' ≠ po
    ∧ m !! ps' = Some (Heap.ObjList
                         (map (λ z, Heap.Ref z.1) (Heap.ranked_refs ps l)))
    ∧ Forall (λ z, z.1 ≠ po ∧ m !! z.1 = Some (Heap.ObjStats z.2))
        (Heap.ranked_refs ps l)
    ∧ ∀ X, σ ⊆ <[po := X]> m.
Proof.
  intros Hxs Hps po.
  set (σ1 := <[po := Heap.ObjList []]> σ).
  set (ps' := fresh (dom σ1)).
  set (L := Heap.ObjList (map (λ z, Heap.Ref z.1) (Heap.ranked_refs ps l))).
  set (m := <[ps' := L]> σ).
  assert (σ !! po = None) as F1 by apply not_elem_of_dom, is_fresh.
  assert (σ1 !! ps' = None) as F0 by apply not_elem_of_dom, is_fresh.
  assert (ps' ≠ po) as F2.
  { intros E. rewrite E in F0. unfold σ1 in F0.
    by rewrite lookup_insert_eq in F0. }
  assert (σ !! ps' = None) as F3.
  { unfold σ1 in F0. by rewrite lookup_insert_ne in F0. }
  assert (σ ⊆ σ1) as S1 by (by apply insert_subseteq).
  assert (σ ⊆ m) as S2 by (by apply insert_subseteq).
  exists ps', m. split; [|split; [done|split; [apply lookup_insert_eq|split]]].
  - rewrite (sorted_new_list σ1 xs ps l).
    + change (Some (ps', <[ps' := L]> (<[po := Heap.ObjList []]> σ))
              = Some (ps', <[po := Heap.ObjList []]> (<[ps' := L]> σ))).
      by rewrite insert_insert_ne.
    + exact (lookup_weaken _ _ _ _ Hxs S1).
    + eapply Forall2_impl; [exact Hps|]. intros p s Hp.
      exact (lookup_weaken _ _ _ _ Hp S1).
  - apply ranked_refs_Forall.
    eapply Forall_impl;
      [exact (Forall2_zip (λ p s, σ !! p = Some (Heap.ObjStats s)) _ _ Hps)|].
    intros [p s] Hp. simpl in *. split; [congruence|].
    exact (lookup_weaken _ _ _ _ Hp S2).
  - intros X. by apply insert_subseteq_r.
Qed.

Lemma text_present_stats_store (σ : Heap.store) (self xs : Heap.loc)
    (l : list UserStats) (days : Z) (msg : option str) :
  Heap.holds_stats σ xs l →
  ∃ σ', Heap.text_present_stats self xs days msg σ
        = Some (Text.present_stats l days msg, σ')
        ∧ σ ⊆ σ'.
Proof.
  intros (ps & Hxs & Hps).
  destruct (call_stores σ xs ps l Hxs Hps) as (ps' & m & Hs & Hne & HL & HF & Hsub).
  set (po := fresh (dom σ)) in *.
  unfold Heap.text_present_stats.
  erewrite bind_Some by reflexivity.
  erewrite bind_Some by exact Hs.
  do 4 (erewrite bind_Some by apply append_str).
  erewrite bind_Some by (by apply read_list_output).
  erewrite bind_Some
    by exact (for_each_output po m (λ i s, [Text.row i s]) _ 0 _ HF).
  erewrite bind_Some by apply append_str.
  erewrite bind_Some by apply append_str_if.
  rewrite join_list_output. eexists. split; [|apply Hsub].
  do 2 f_equal. unfold Text.output.
  rewrite (rows_of_ranked (λ i s, [Text.row i s]))
    by (by eapply Forall2_length).
  rewrite mjoin_imap_singleton, <- !app_assoc. done.
Qed.

Lemma html_present_stats_store (σ : Heap.store) (self xs : Heap.loc)
    (l : list UserStats) (days : Z) (msg : option str) :
  Heap.holds_stats σ xs l →
  ∃ σ', Heap.html_present_stats self xs days msg σ
        = Some (Html.present_stats l days msg, σ')
        ∧ σ ⊆ σ'.
Proof.
  intros (ps & Hxs & Hps).
  destruct (call_stores σ xs ps l Hxs Hps) as (ps' & m & Hs & Hne & HL & HF & Hsub).
  set (po := fresh (dom σ)) in *.
  unfold Heap.html_present_stats.
  erewrite bind_Some by reflexivity.
  erewrite bind_Some by exact Hs.
  do 2 (erewrite bind_Some by apply extend_strs).
  erewrite bind_Some by (by apply read_list_output).
  erewrite bind_Some by exact (for_each_output po m Html.row _ 0 _ HF).
  erewrite bind_Some by apply append_str.
  erewrite bind_Some by apply append_str_if.
  erewrite bind_Some
    by exact (extend_strs po m _ [lit "</body>"; lit "</html>"]).
  rewrite join_list_output. eexists. split; [|apply Hsub].
  do 2 f_equal. unfold Html.html_parts.
  rewrite (rows_of_ranked Html.row) by (by eapply Forall2_length).
  rewrite <- !app_assoc. done.
Qed.

(** A presenter made by the factory is a new object. *)
Lemma get_presenter_new (output_type : option str) (σ : Heap.store) :
  ∃ p σ', Heap.get_presenter output_type σ = Some (p, σ')
          ∧ σ !! p = None
          ∧ σ' !! p = Some (Heap.ObjPresenter (get_presenter output_type))
          ∧ σ ⊆ σ'.
Proof.
  eexists _, _. split; [reflexivity|].
  assert (σ !! fresh (dom σ) = None) as Hnew
    by apply not_elem_of_dom, is_fresh.
  split; [done|]. split; [apply lookup_insert_eq | by apply insert_subseteq].
Qed.

(** C9: a call of [present_stats] on a store returns the report and a
    store in which every object that was there before the call is as it
    was: the list of the records, every record and the presenter, which
    has no attribute to change; [sorted] puts its result in a new list
    and leaves the list it is given as it is. *)
Theorem present_stats_frame (cls : BasePresenter) (σ : Heap.store)
    (self xs : Heap.loc) (l : list UserStats) (days : Z) (msg : option str) :
  σ !! self = Some (Heap.ObjPresenter cls) →
  Heap.holds_stats σ xs l →
  (∃ σ', Heap.present_stats self xs days msg σ
         = Some (present_stats cls l days msg, σ')
         ∧ (∀ p o, σ !! p = Some o → σ' !! p = Some o)
         ∧ σ' !! self = Some (Heap.ObjPresenter cls)
         ∧ Heap.holds_stats σ' xs l)
  ∧ (∃ p σs, Heap.sorted xs σ = Some (p, σs)
             ∧ σ !! p = None ∧ σs !! xs = σ !! xs).
Proof.
  intros Hself Hl. split.
  2: { destruct Hl as (ps & Hxs & Hps).
       destruct (sorted_fresh_copy σ xs ps l Hxs Hps) as (p & σs & ? & ? & ?).
       exists p, σs. by rewrite Hxs. }
  assert (∃ σ', Heap.present_stats self xs days msg σ
                = Some (present_stats cls l days msg, σ') ∧ σ ⊆ σ')
    as (σ' & Hrun & Hsub).
  { unfold Heap.present_stats. rewrite Hself.
    destruct cls; [by apply text_present_stats_store
                  | by apply html_present_stats_store]. }
  exists σ'. split; [done|].
  assert (∀ p o, σ !! p = Some o → σ' !! p = Some o) as Hframe.
  { intros p o Hp. exact (lookup_weaken _ _ _ _ Hp Hsub). }
  split; [done|]. split; [by apply Hframe|].
  destruct Hl as (ps & Hxs & Hps). exists ps. split; [by apply Hframe|].
  eapply Forall2_impl; [exact Hps|]. intros p s Hp. by apply Hframe.
Qed.

Lemma present_stats_frame_witness :
  (∃ σ', Heap.present_stats 1%positive 4%positive 7 None Heap.sample_store
         = Some (present_stats TextPresenter
                   [mkUserStats (lit "carol") 5 5 0 0;
                    mkUserStats (lit "alice") 10 5 3 2;
                    mkUserStats (lit "carol") 5 5 0 0] 7 None, σ')
         ∧ (∀ p o, Heap.sample_store !! p = Some o → σ' !! p = Some o)
         ∧ σ' !! 1%positive = Some (Heap.ObjPresenter TextPresenter)
         ∧ Heap.holds_stats σ' 4%positive
             [mkUserStats (lit "carol") 5 5 0 0;
              mkUserStats (lit "alice") 10 5 3 2;
              mkUserStats (lit "carol") 5 5 0 0])
  ∧ (∃ p σs, Heap.sorted 4%positive Heap.sample_store = Some (p, σs)
             ∧ Heap.sample_store !! p = None
             ∧ σs !! 4%positive = Heap.sample_store !! 4%positive).
Proof.
  apply (present_stats_frame TextPresenter Heap.sample_store 1 4); [reflexivity|].
  exists [3%positive; 2%positive; 3%positive]. split; [reflexivity|].
  repeat constructor.
Defined.

End HeapFacts.
(** ** The presenters on arbitrary objects *)

Section DynFacts.

Lemma sequence_fmap_Ok {A B : Type} (f : A → B) (l : list A) :
  Dyn.sequence (map (λ a, Dyn.Ok (f a)) l) = Dyn.Ok (map f l).
Proof. induction l as [|a l IH]; [done|]. simpl. by rewrite IH. Qed.

Lemma sequence_imap_Ok {A B : Type} (f : nat → A → Dyn.result B)
    (g : nat → A → B) (l : list A) :
  (∀ i a, f i a = Dyn.Ok (g i a)) →
  Dyn.sequence (imap f l) = Dyn.Ok (imap g l).
Proof.
  revert f g. induction l as [|a l IH]; intros f g Hfg; [done|].
  rewrite !imap_cons. simpl. rewrite Hfg. simpl.
  rewrite (IH (f ∘ S) (g ∘ S)); [done|]. intros; apply Hfg.
Qed.

Lemma of_stats_lookup (s : UserStats) :
  Dyn.of_stats s !! "username" = Some (Dyn.VStr (username s))
  ∧ Dyn.of_stats s !! "total_questions" = Some (Dyn.VInt (total_questions s))
  ∧ Dyn.of_stats s !! "easy_count" = Some (Dyn.VInt (easy_count s))
  ∧ Dyn.of_stats s !! "medium_count" = Some (Dyn.VInt (medium_count s))
  ∧ Dyn.of_stats s !! "hard_count" = Some (Dyn.VInt (hard_count s)).
Proof. unfold Dyn.of_stats. repeat split; by simplify_map_eq. Qed.

Lemma insert_desc_keyed (x : UserStats) (r : list UserStats) :
  Dyn.insert_desc (Dyn.keyed x) (map Dyn.keyed r)
  = Dyn.Ok (map Dyn.keyed (insert_desc total_questions x r)).
Proof.
  induction r as [|y r IH]; [done|]. simpl.
  destruct (Z.ltb_spec (total_questions x) (total_questions y)),
           (Z.leb_spec (total_questions y) (total_questions x));
    try lia; simpl; [|done].
  by rewrite IH.
Qed.

Lemma sort_desc_keyed (l : list UserStats) :
  Dyn.sort_desc (map Dyn.keyed l)
  = Dyn.Ok (map Dyn.keyed (sorted_desc total_questions l)).
Proof.
  induction l as [|x l IH]; [done|]. simpl. rewrite IH. simpl.
  apply insert_desc_keyed.
Qed.

Lemma sorted_of_stats (l : list UserStats) :
  Dyn.sorted (map Dyn.of_stats l)
  = Dyn.Ok (map Dyn.of_stats (sorted_desc total_questions l)).
Proof.
  unfold Dyn.sorted. rewrite map_map.
  rewrite (map_ext _ (λ s, Dyn.Ok (Dyn.keyed s))).
  2: { intros s. unfold Dyn.getattr.
       by destruct (of_stats_lookup s) as (_ & -> & _). }
  rewrite sequence_fmap_Ok. simpl. rewrite sort_desc_keyed. simpl.
  by rewrite map_map.
Qed.

Lemma sequence_imap_Ok_in {A B : Type} (f : nat → A → Dyn.result B)
    (g : nat → A → B) (l : list A) :
  (∀ i a, a ∈ l → f i a = Dyn.Ok (g i a)) →
  Dyn.sequence (imap f l) = Dyn.Ok (imap g l).
Proof.
  revert f g. induction l as [|a l IH]; intros f g Hfg; [done|].
  rewrite !imap_cons. simpl. rewrite Hfg by apply list_elem_of_here. simpl.
  rewrite (IH (f ∘ S) (g ∘ S)); [done|].
  intros i b Hb. apply Hfg. by apply list_elem_of_further.
Qed.

Lemma int_to_str_within (n : Z) :
  within_digit_limit n = true → Dyn.int_to_str n = Dyn.Ok (str_of_int n).
Proof. unfold Dyn.int_to_str. by intros ->. Qed.

Lemma text_row_of_stats (i : nat) (s : UserStats) :
  stats_within_limit s →
  Dyn.text_row i (Dyn.of_stats s) = Dyn.Ok (Text.row i s).
Proof.
  intros (Ht & He & Hm & Hh).
  unfold Dyn.text_row, Dyn.getattr.
  destruct (of_stats_lookup s) as (-> & -> & -> & -> & ->).
  cbn [Dyn.bind Dyn.format_left Dyn.to_str].
  rewrite !int_to_str_within by done.
  unfold Text.row, Text.username_display.
  by destruct (medal_of_rank i).
Qed.

Lemma html_row_of_stats (i : nat) (s : UserStats) :
  stats_within_limit s →
  Dyn.html_row i (Dyn.of_stats s) = Dyn.Ok (Html.row i s).
Proof.
  intros (Ht & He & Hm & Hh).
  unfold Dyn.html_row, Dyn.getattr.
  destruct (of_stats_lookup s) as (-> & -> & -> & -> & ->).
  cbn [Dyn.bind Dyn.to_str].
  by rewrite !int_to_str_within by done.
Qed.

(** On a list of [UserStats] records whose numbers the interpreter
    converts, the methods raise nothing and return the report of the
    typed embedding. *)
Lemma present_stats_of_stats (self : BasePresenter) (l : list UserStats)
    (days : Z) (msg : option str) :
  within_digit_limit days = true →
  Forall stats_within_limit l →
  Dyn.present_stats self (map Dyn.of_stats l) days msg
  = Dyn.Ok (present_stats self l days msg).
Proof.
  intros Hd Hl.
  assert (Forall stats_within_limit (sorted_desc total_questions l)) as Hr
    by (by rewrite (sorted_desc_perm total_questions l)).
  rewrite Forall_forall in Hr.
  destruct self; simpl;
    unfold Dyn.text_present_stats, Dyn.html_present_stats;
    rewrite sorted_of_stats; cbn [Dyn.bind];
    rewrite (int_to_str_within days Hd); cbn [Dyn.bind];
    rewrite imap_fmap.
  - rewrite (sequence_imap_Ok_in _ Text.row); [done|].
    intros i s Hs. by apply text_row_of_stats, Hr.
  - rewrite (sequence_imap_Ok_in _ Html.row); [done|].
    intros i s Hs. by apply html_row_of_stats, Hr.
Qed.

(** One step of a computation that has returned: its first part has
    returned as well. *)
Ltac bind_step H :=
  match type of H with
  | Dyn.bind (match ?x !! ?n with _ => _ end) _ = _ =>
      destruct (x !! n) eqn:?; cbn [Dyn.bind] in H; [|discriminate H]
  | Dyn.bind ?r _ = _ =>
      destruct r eqn:?; cbn [Dyn.bind] in H; [|discriminate H]
  end.

Lemma sequence_Ok_inv {A : Type} (l : list (Dyn.result A)) (rs : list A) :
  Dyn.sequence l = Dyn.Ok rs → Forall2 (λ r a, r = Dyn.Ok a) l rs.
Proof.
  revert rs. induction l as [|r l IH]; intros rs H; simpl in H.
  - injection H as <-. constructor.
  - repeat bind_step H. injection H as <-. constructor; [done|]. by apply IH.
Qed.

Lemma insert_desc_perm_dyn x l r :
  Dyn.insert_desc x l = Dyn.Ok r → r ≡ₚ x :: l.
Proof.
  revert r. induction l as [|y l IH]; intros r H; simpl in H.
  - by injection H as <-.
  - bind_step H. destruct a.
    + bind_step H. injection H as <-.
      rewrite (IH _ eq_refl). apply Permutation_swap.
    + by injection H as <-.
Qed.

Lemma sort_desc_perm_dyn l r : Dyn.sort_desc l = Dyn.Ok r → r ≡ₚ l.
Proof.
  revert r. induction l as [|x l IH]; intros r H; simpl in H.
  - by injection H as <-.
  - bind_step H. apply insert_desc_perm_dyn in H.
    by rewrite H, (IH _ eq_refl).
Qed.

Lemma insert_desc_returns x l :
  Forall (λ y, ∃ b, Dyn.lt x.1 y.1 = Dyn.Ok b) l →
  ∃ r, Dyn.insert_desc x l = Dyn.Ok r.
Proof.
  induction 1 as [|y l [b Hb] _ [r IH]]; simpl; [by eexists|].
  rewrite Hb. simpl. destruct b; [|by eexists].
  rewrite IH. simpl. by eexists.
Qed.

(** The sort returns exactly when it has at most one key to look at or
    the keys can be ordered among themselves. *)
Lemma sort_desc_returns (l : list (Dyn.value * Dyn.object)) :
  (∃ r, Dyn.sort_desc l = Dyn.Ok r)
  ↔ (length l ≤ 1)%nat ∨ Dyn.orderable (map fst l).
Proof.
  split.
  - intros [r H]. revert r H.
    induction l as [|x l IH]; intros r H; [left; simpl; lia|].
    simpl in H. bind_step H.
    match goal with Hs : Dyn.sort_desc l = _ |- _ =>
      pose proof (sort_desc_perm_dyn _ _ Hs) as Hperm end.
    specialize (IH _ eq_refl).
    destruct a as [|y a].
    { apply Permutation_nil_l in Hperm. subst l. left. simpl. lia. }
    right. simpl in H. bind_step H.
    assert (y ∈ l) as Hy by (rewrite <- Hperm; apply list_elem_of_here).
    assert (Dyn.is_int x.1 ∧ Dyn.is_int y.1
            ∨ Dyn.is_str x.1 ∧ Dyn.is_str y.1) as Hxy.
    { match goal with Hlt : Dyn.lt _ _ = _ |- _ => revert Hlt end.
      unfold Dyn.is_int, Dyn.is_str.
      destruct x.1, y.1; simpl; intros Hlt; try discriminate Hlt;
        [left|right]; eauto. }
    assert (∀ P : Dyn.value → Prop, P y.1 → (length l ≤ 1)%nat →
              Forall P (map fst l)) as Hone.
    { intros P HP Hlen. destruct l as [|z [|z' l]]; simpl in Hlen; try lia.
      - by apply elem_of_nil in Hy.
      - apply list_elem_of_singleton in Hy as ->. by repeat constructor. }
    assert (∀ P Q : Dyn.value → Prop, (∀ v, P v → Q v → False) → P y.1 →
              Forall Q (map fst l) → False) as Hmix.
    { intros P Q HPQ HP HQ. rewrite Forall_forall in HQ.
      apply (HPQ y.1 HP), HQ, list_elem_of_fmap. by exists y. }
    unfold Dyn.orderable. simpl.
    destruct Hxy as [[Hx Hy']|[Hx Hy']]; [left|right]; constructor; try done.
    + destruct IH as [Hlen|[Hi|Hs]]; [by apply Hone|done|].
      exfalso. apply (Hmix Dyn.is_int Dyn.is_str); try done.
      by intros v [n ->] [s' [=]].
    + destruct IH as [Hlen|[Hi|Hs]]; [by apply Hone| |done].
      exfalso. apply (Hmix Dyn.is_str Dyn.is_int); try done.
      by intros v [s' ->] [n [=]].
  - intros [Hlen|Hord].
    + destruct l as [|x [|y l]]; simpl in Hlen; try lia; by eexists.
    + assert (∀ x y, x ∈ l → y ∈ l → ∃ b, Dyn.lt x.1 y.1 = Dyn.Ok b) as Hlt.
      { intros x y Hx Hy.
        assert (x.1 ∈ map fst l ∧ y.1 ∈ map fst l) as [Hx' Hy'].
        { split; apply list_elem_of_fmap; eauto. }
        destruct Hord as [H|H]; rewrite Forall_forall in H;
          destruct (H _ Hx') as [? ->], (H _ Hy') as [? ->]; by eexists. }
      clear Hord. induction l as [|x l IH]; [by eexists|].
      destruct IH as [r Hr].
      { intros y z Hy Hz. apply Hlt; by apply list_elem_of_further. }
      simpl. rewrite Hr. simpl. apply insert_desc_returns.
      apply Forall_forall. intros y Hy. apply Hlt; [apply list_elem_of_here|].
      apply list_elem_of_further.
      by rewrite <- (sort_desc_perm_dyn _ _ Hr).
Qed.

Lemma sorted_perm_dyn l r : Dyn.sorted l = Dyn.Ok r → r ≡ₚ l.
Proof.
  unfold Dyn.sorted. intros H. repeat bind_step H. injection H as <-.
  match goal with Hs : Dyn.sort_desc _ = _ |- _ =>
    apply sort_desc_perm_dyn in Hs; rewrite Hs end.
  match goal with Hq : Dyn.sequence _ = _ |- _ =>
    apply sequence_Ok_inv in Hq; rename Hq into Hq' end.
  clear -Hq'. revert a Hq'.
  induction l as [|o l IH]; intros a Hq; inversion Hq as [|? ? ? ? Ho Hl]; subst;
    [done|].
  unfold Dyn.getattr in Ho. destruct (o !! "total_questions"); [|done].
  injection Ho as <-. simpl. f_equiv. by apply IH.
Qed.

(** [sorted] reads the key of every element before it compares any. *)
Lemma sorted_missing_total (l : list Dyn.object) :
  (∃ o, o ∈ l ∧ o !! "total_questions" = None) →
  Dyn.sorted l = Dyn.Raise Dyn.AttributeError.
Proof.
  intros (o & Hin & Ho). unfold Dyn.sorted.
  assert (Dyn.sequence
            (map (λ x, Dyn.bind (Dyn.getattr x "total_questions")
                         (λ k, Dyn.Ok (k, x))) l)
          = Dyn.Raise Dyn.AttributeError) as ->; [|done].
  induction Hin as [o l|o o' l Hin IH]; simpl; unfold Dyn.getattr at 1.
  - by rewrite Ho.
  - destruct (o' !! "total_questions"); [|done]. simpl.
    by rewrite (IH Ho).
Qed.

Lemma text_row_Ok_inv i o x :
  Dyn.text_row i o = Dyn.Ok x → ¬ Dyn.missing_field o.
Proof.
  unfold Dyn.text_row, Dyn.getattr. intros H (name & Hin & Hnone).
  repeat bind_step H.
  unfold Dyn.required in Hin.
  repeat (apply elem_of_cons in Hin as [->|Hin]); try congruence.
  by apply elem_of_nil in Hin.
Qed.

Lemma html_row_Ok_inv i o x :
  Dyn.html_row i o = Dyn.Ok x → ¬ Dyn.missing_field o.
Proof.
  unfold Dyn.html_row, Dyn.getattr. intros H (name & Hin & Hnone).
  repeat bind_step H.
  unfold Dyn.required in Hin.
  repeat (apply elem_of_cons in Hin as [->|Hin]); try congruence.
  by apply elem_of_nil in Hin.
Qed.

Lemma sequence_imap_Ok_inv {A B : Type} (f : nat → A → Dyn.result B)
    (l : list A) (rs : list B) (a : A) :
  Dyn.sequence (imap f l) = Dyn.Ok rs → a ∈ l → ∃ i b, f i a = Dyn.Ok b.
Proof.
  intros H Ha. apply sequence_Ok_inv in H.
  apply list_elem_of_lookup in Ha as [i Hi].
  destruct (Forall2_lookup_l _ _ _ i (f i a) H) as (b & _ & Hb).
  - by rewrite list_lookup_imap, Hi.
  - by exists i, b.
Qed.

(** Where each exception comes from. *)

Lemma sequence_raises {A : Type} (l : list (Dyn.result A)) e :
  Dyn.sequence l = Dyn.Raise e → Dyn.Raise e ∈ l.
Proof.
  induction l as [|r l IH]; simpl; [done|].
  destruct r as [a|e']; simpl.
  - destruct (Dyn.sequence l); simpl; [done|].
    intros [= <-]. by apply list_elem_of_further, IH.
  - intros [= <-]. apply list_elem_of_here.
Qed.

Lemma insert_desc_raises x l e :
  Dyn.insert_desc x l = Dyn.Raise e → e = Dyn.TypeError.
Proof.
  induction l as [|y l IH]; simpl; [done|].
  destruct (Dyn.lt x.1 y.1) as [b|e'] eqn:Hlt; simpl.
  - destruct b; [|done].
    destruct (Dyn.insert_desc x l); simpl; [done|]. intros [= <-]. by apply IH.
  - intros [= <-]. unfold Dyn.lt in Hlt.
    destruct x.1, y.1; by try injection Hlt as <-.
Qed.

Lemma sort_desc_raises l e :
  Dyn.sort_desc l = Dyn.Raise e → e = Dyn.TypeError.
Proof.
  induction l as [|x l IH]; simpl; [done|].
  destruct (Dyn.sort_desc l) as [r|e']; simpl.
  - apply insert_desc_raises.
  - intros [= <-]. by apply IH.
Qed.

Lemma sorted_raises (l : list Dyn.object) e :
  Dyn.sorted l = Dyn.Raise e → e = Dyn.AttributeError ∨ e = Dyn.TypeError.
Proof.
  unfold Dyn.sorted.
  destruct (Dyn.sequence _) as [keyed|e'] eqn:Hk; cbn [Dyn.bind].
  - destruct (Dyn.sort_desc keyed) eqn:Hs; cbn [Dyn.bind]; [done|].
    intros [= <-]. right. by eapply sort_desc_raises.
  - intros [= <-]. left.
    apply sequence_raises, list_elem_of_fmap in Hk as (o & Hk & _).
    unfold Dyn.getattr in Hk.
    destruct (o !! "total_questions"); cbn [Dyn.bind] in Hk; congruence.
Qed.

Lemma int_to_str_raises (n : Z) e :
  Dyn.int_to_str n = Dyn.Raise e →
  e = Dyn.ValueError ∧ within_digit_limit n = false.
Proof.
  unfold Dyn.int_to_str. destruct (within_digit_limit n); [done|].
  by intros [= <-].
Qed.

Lemma to_str_raises (v : Dyn.value) e :
  Dyn.to_str v = Dyn.Raise e →
  e = Dyn.ValueError ∧ ¬ Dyn.value_within_limit v.
Proof.
  destruct v; simpl; try done.
  intros [-> H]%int_to_str_raises. split; [done|]. by rewrite H.
Qed.

Lemma format_left_raises (w : nat) (v : Dyn.value) e :
  Dyn.format_left w v = Dyn.Raise e →
  e = Dyn.TypeError ∧ v = Dyn.VNone
  ∨ e = Dyn.ValueError ∧ ¬ Dyn.value_within_limit v.
Proof.
  destruct v; simpl.
  - destruct (Dyn.int_to_str n) eqn:E; cbn [Dyn.bind]; [done|].
    intros [= <-]. apply int_to_str_raises in E as [-> H].
    right. split; [done|]. by rewrite H.
  - done.
  - intros [= <-]. by left.
Qed.

(** A row raises [ValueError] only for an attribute that is an integer
    beyond the limit. *)
Ltac value_error_step H :=
  match type of H with
  | Dyn.bind (match ?x !! ?n with _ => _ end) _ = _ =>
      destruct (x !! n) eqn:?; cbn [Dyn.bind] in H; [|discriminate H]
  | Dyn.bind (Dyn.to_str ?v) _ = _ =>
      let E := fresh "E" in
      destruct (Dyn.to_str v) eqn:E; cbn [Dyn.bind] in H;
      [|injection H as ->; apply to_str_raises in E as [_ E]; eauto]
  | Dyn.bind (Dyn.bind (Dyn.to_str ?v) _) _ = _ =>
      let E := fresh "E" in
      destruct (Dyn.to_str v) eqn:E; cbn [Dyn.bind] in H;
      [|injection H as ->; apply to_str_raises in E as [_ E]; eauto]
  | Dyn.bind (Dyn.format_left ?w ?v) _ = _ =>
      let E := fresh "E" in
      destruct (Dyn.format_left w v) eqn:E; cbn [Dyn.bind] in H;
      [|injection H as ->;
        apply format_left_raises in E as [[E _]|[_ E]];
        [discriminate E | eauto]]
  end.

Lemma text_row_ValueError (i : nat) (o : Dyn.object) :
  Dyn.text_row i o = Dyn.Raise Dyn.ValueError →
  ∃ name v, o !! name = Some v ∧ ¬ Dyn.value_within_limit v.
Proof.
  unfold Dyn.text_row, Dyn.getattr. intros H.
  value_error_step H.
  destruct (medal_of_rank i); cbn [Dyn.bind] in H.
  - value_error_step H. cbn [Dyn.format_left Dyn.bind] in H.
    repeat value_error_step H. discriminate H.
  - repeat value_error_step H. discriminate H.
Qed.

Lemma html_row_ValueError (i : nat) (o : Dyn.object) :
  Dyn.html_row i o = Dyn.Raise Dyn.ValueError →
  ∃ name v, o !! name = Some v ∧ ¬ Dyn.value_within_limit v.
Proof.
  unfold Dyn.html_row, Dyn.getattr. intros H.
  repeat value_error_step H. discriminate H.
Qed.

(** [ValueError] comes only from an integer beyond the limit of the
    interpreter. *)
Lemma present_stats_ValueError (self : BasePresenter) (l : list Dyn.object)
    (days : Z) (msg : option str) :
  Dyn.present_stats self l days msg = Dyn.Raise Dyn.ValueError →
  ¬ Dyn.ints_within_limit days l.
Proof.
  intros H [Hd Hl].
  assert (∀ (B : Type) r (f : nat → Dyn.object → Dyn.result B),
            Dyn.sorted l = Dyn.Ok r →
            (∀ i o, f i o = Dyn.Raise Dyn.ValueError →
                    ∃ name v, o !! name = Some v
                              ∧ ¬ Dyn.value_within_limit v) →
            Dyn.Raise Dyn.ValueError ∈ imap f r → False) as Hrows.
  { intros B r f Hs Hf Hin.
    apply elem_of_lookup_imap_1 in Hin as (i & o & Hrow & Hi).
    destruct (Hf i o) as (name & v & Hv & Hbad); [done|].
    apply Hbad, (Hl o name v); [|done].
    rewrite <- (sorted_perm_dyn _ _ Hs). by eapply list_elem_of_lookup_2. }
  destruct self; simpl in H;
    unfold Dyn.text_present_stats, Dyn.html_present_stats in H;
    (destruct (Dyn.sorted l) as [r|e] eqn:Hs; cbn [Dyn.bind] in H;
     [|injection H as ->; by destruct (sorted_raises _ _ Hs)]);
    rewrite (int_to_str_within days Hd) in H; cbn [Dyn.bind] in H;
    (destruct (Dyn.sequence _) eqn:Hq in H; cbn [Dyn.bind] in H; [done|]);
    injection H as ->; apply sequence_raises in Hq.
  - by apply (Hrows _ r Dyn.text_row eq_refl text_row_ValueError).
  - by apply (Hrows _ r Dyn.html_row eq_refl html_row_ValueError).
Qed.

(** C3, as amended: when a record of the list lacks a required
    attribute, [present_stats] returns no report: it raises an exception
    of the interpreter, for both presenters.  The exception is
    [AttributeError] when the attribute that lacks is [total_questions];
    it is [AttributeError] or [TypeError] when the integers to show are
    within the limit of the interpreter, and may be [ValueError]
    otherwise. *)
Theorem missing_field_raises (self : BasePresenter) (l : list Dyn.object)
    (days : Z) (msg : option str) :
  (∃ o, o ∈ l ∧ Dyn.missing_field o) →
  ∃ e, Dyn.present_stats self l days msg = Dyn.Raise e
       ∧ ((∃ o, o ∈ l ∧ o !! "total_questions" = None) →
          e = Dyn.AttributeError)
       ∧ (Dyn.ints_within_limit days l →
          e = Dyn.AttributeError ∨ e = Dyn.TypeError).
Proof.
  intros (o & Hin & Hmiss).
  destruct (Dyn.present_stats self l days msg) as [out|e] eqn:H.
  - exfalso. destruct self; simpl in H;
      unfold Dyn.text_present_stats, Dyn.html_present_stats in H;
      repeat bind_step H;
      match goal with
      | Hs : Dyn.sorted _ = _, Hq : Dyn.sequence _ = _ |- _ =>
          apply sorted_perm_dyn in Hs; rewrite <- Hs in Hin;
          destruct (sequence_imap_Ok_inv _ _ _ _ Hq Hin) as (i & b & Hrow)
      end.
    + by apply text_row_Ok_inv in Hrow.
    + by apply html_row_Ok_inv in Hrow.
  - exists e. split; [done|]. split.
    + intros Htot. apply sorted_missing_total in Htot.
      destruct self; simpl in H;
        unfold Dyn.text_present_stats, Dyn.html_present_stats in H;
        rewrite Htot in H; simpl in H; congruence.
    + intros Hlim. destruct e; auto.
      by apply present_stats_ValueError in H.
Qed.

Lemma missing_field_raises_witness :
  ∃ e, Dyn.present_stats TextPresenter [Dyn.incomplete_object] 7 None
       = Dyn.Raise e
       ∧ ((∃ o, o ∈ [Dyn.incomplete_object]
                ∧ o !! "total_questions" = None) →
          e = Dyn.AttributeError)
       ∧ (Dyn.ints_within_limit 7 [Dyn.incomplete_object] →
          e = Dyn.AttributeError ∨ e = Dyn.TypeError).
Proof.
  apply (missing_field_raises TextPresenter [Dyn.incomplete_object] 7 None).
  exists Dyn.incomplete_object. split; [apply list_elem_of_here|].
  exists "hard_count". split; [|reflexivity].
  unfold Dyn.required. repeat constructor.
Defined.

(** C3, as stated, fails: the object [malformed_object] has a string
    where a count is expected, and both presenters return a report for
    it. *)
Lemma malformed_object_rendered :
  ¬ Dyn.well_shaped Dyn.malformed_object
  ∧ (∃ out, Dyn.present_stats TextPresenter [Dyn.malformed_object] 7 None
            = Dyn.Ok out)
  ∧ (∃ out, Dyn.present_stats HtmlPresenter [Dyn.malformed_object] 7 None
            = Dyn.Ok out).
Proof.
  split; [|split; eexists; vm_compute; reflexivity].
  intros [_ H]. destruct (H "easy_count") as [n Hn].
  - repeat constructor.
  - vm_compute in Hn. discriminate Hn.
Qed.

End DynFacts.

(** ** The reports written out *)

Lemma join_cons (sep p q : str) (rest : list str) :
  join sep (p :: q :: rest) = p ++ sep ++ join sep (q :: rest).
Proof. done. Qed.

Lemma join_cons_ne (sep q : str) (rest : list str) :
  rest ≠ [] → join sep (q :: rest) = q ++ sep ++ join sep rest.
Proof. by destruct rest. Qed.

Lemma join_lines (parts : list str) (p : str) :
  join [newline] (parts ++ [p]) = mjoin (map line parts) ++ p.
Proof.
  induction parts as [|q parts IH]; [done|].
  change (join [newline] ((q :: parts) ++ [p]))
    with (join [newline] (q :: (parts ++ [p]))).
  rewrite join_cons_ne, IH by (by destruct parts).
  cbn [map mjoin list_join]. unfold line. by rewrite <- !app_assoc.
Qed.

Lemma mjoin_cons {A : Type} (x : list A) (xs : list (list A)) :
  mjoin (x :: xs) = x ++ mjoin xs.
Proof. done. Qed.

Lemma mjoin_lines_rows {A : Type} (f : nat → A → list str) (l : list A) :
  mjoin (map line (mjoin (imap f l)))
  = mjoin (imap (λ i a, mjoin (map line (f i a))) l).
Proof.
  revert f. induction l as [|a l IH]; intros f; [done|].
  rewrite !imap_cons, !mjoin_cons, map_app.
  etrans; [apply (join_app (A:=char))|]. f_equal. apply (IH (f ∘ S)).
Qed.

Lemma text_row_written (i : nat) (s : UserStats) :
  line (Text.row i s) = text_report_row (text_medal i) s.
Proof.
  unfold text_report_row, Text.row, Text.username_display. do 2 f_equal.
  destruct i as [|[|[|i]]]; cbn [medal_of_rank text_medal]; try done.
  by rewrite app_nil_r.
Qed.

Lemma html_row_written (i : nat) (s : UserStats) :
  mjoin (map line (Html.row i s))
  = html_report_row (bool_decide (i = 0%nat)) (html_medal i) s.
Proof.
  unfold html_report_row, Html.row, Html.cell, Html.username_cell.
  cbn [map mjoin list_join]. rewrite app_nil_r.
  destruct i as [|[|[|i]]]; cbn [html_medal]; reflexivity.
Qed.

Lemma mjoin_cons_str (x : str) (xs : list str) :
  mjoin (x :: xs) = x ++ mjoin xs.
Proof. done. Qed.

Lemma mjoin_app_str (l1 l2 : list str) :
  mjoin (l1 ++ l2) = mjoin l1 ++ mjoin l2.
Proof. apply (join_app (A:=char)). Qed.

Lemma join_lines_app (a b : list str) (p : str) :
  join [newline] (a ++ b ++ [p])
  = mjoin (map line a) ++ mjoin (map line b) ++ p.
Proof.
  rewrite app_assoc, join_lines, map_app, mjoin_app_str.
  by rewrite <- app_assoc.
Qed.

Lemma text_present_stats_written (l : list UserStats) days msg :
  Text.present_stats l days msg
  = text_report text_medal (sorted_desc total_questions l) days msg.
Proof.
  unfold Text.present_stats, Text.output, text_report.
  set (r := sorted_desc total_questions l).
  assert (mjoin (map line (imap Text.row r))
          = mjoin (imap (λ i s, text_report_row (text_medal i) s) r)) as Hrows.
  { rewrite fmap_imap. f_equal. apply imap_ext. intros i s _.
    apply text_row_written. }
  assert (mjoin (map line [Text.title days; Text.rule; Text.column_header;
                           Text.rule])
          = text_report_head days) as Hhead.
  { unfold text_report_head, Text.title, line. cbn [map mjoin list_join].
    change Text.rule with dashes.
    change Text.column_header
      with (lit "Username                  Total Questions Easy       Medium     Hard      ").
    by rewrite app_nil_r. }
  assert (join [newline]
            ([Text.title days; Text.rule; Text.column_header; Text.rule]
               ++ imap Text.row r ++ [Text.rule])
          = text_report_head days
              ++ mjoin (imap (λ i s, text_report_row (text_medal i) s) r)
              ++ dashes) as Hplain.
  { by rewrite join_lines_app, Hhead, Hrows. }
  unfold text_report_tail. destruct msg as [[|c m]|]; cbn [truthy default];
    rewrite ?app_nil_r; try exact Hplain.
  rewrite (app_assoc (imap Text.row r)), join_lines_app, Hhead.
  rewrite map_app, mjoin_app_str, Hrows. cbn [map mjoin list_join].
  rewrite app_nil_r. unfold line. change Text.rule with dashes.
  by rewrite <- !app_assoc.
Qed.

Lemma html_head_written (days : Z) :
  mjoin (map line (Html.document_head ++ Html.stats_header days))
  = html_report_head days.
Proof.
  unfold html_report_head, Html.document_head, Html.stats_header.
  cbn [app map mjoin list_join]. by rewrite app_nil_r.
Qed.

Lemma html_present_stats_written (l : list UserStats) days msg :
  Html.present_stats l days msg
  = html_report html_medal (sorted_desc total_questions l) days msg.
Proof.
  unfold Html.present_stats, Html.html_parts, html_report.
  set (r := sorted_desc total_questions l).
  assert (mjoin (map line (mjoin (imap Html.row r)))
          = mjoin (imap (λ i s, html_report_row (bool_decide (i = 0%nat))
                                  (html_medal i) s) r)) as Hrows.
  { rewrite mjoin_lines_rows. f_equal. apply imap_ext. intros i s _.
    apply html_row_written. }
  set (middle := [lit "</table>"]
                   ++ (if truthy msg
                       then [Html.message_div (default [] msg)] else [])
                   ++ [lit "</body>"]).
  assert (Html.document_head ++ Html.stats_header days ++ mjoin (imap Html.row r)
            ++ [lit "</table>"]
            ++ (if truthy msg
                then [Html.message_div (default [] msg)] else [])
            ++ [lit "</body>"; lit "</html>"]
          = (Html.document_head ++ Html.stats_header days)
              ++ (mjoin (imap Html.row r) ++ middle) ++ [lit "</html>"]) as ->.
  { unfold middle. by rewrite <- !app_assoc. }
  rewrite join_lines_app, html_head_written, map_app, mjoin_app_str, Hrows.
  rewrite <- !app_assoc. do 2 f_equal.
  unfold middle, html_report_tail, Html.message_div, line.
  destruct msg as [[|c m]|]; cbn [truthy default app map mjoin list_join];
    unfold id; cbn [app]; by rewrite <- ?app_assoc.
Qed.

(** C1: the report each presenter returns is, between its head and its
    tail, the rows of the users in descending order of
    [total_questions], one row after the other, and users with the same
    total stay in the order of the input list. *)
Theorem rows_descending_stable (l : list UserStats) days msg :
  ∃ ranked : list UserStats,
    ranked ≡ₚ l
    ∧ StronglySorted (λ a b, total_questions b ≤ total_questions a) ranked
    ∧ (∀ k, filter (λ s, total_questions s = k) ranked
            = filter (λ s, total_questions s = k) l)
    ∧ present_stats TextPresenter l days msg
      = text_report_head days
          ++ mjoin (imap (λ i s, text_report_row (text_medal i) s) ranked)
          ++ text_report_tail msg
    ∧ present_stats HtmlPresenter l days msg
      = html_report_head days
          ++ mjoin (imap (λ i s, html_report_row (bool_decide (i = 0%nat))
                                   (html_medal i) s) ranked)
          ++ html_report_tail msg.
Proof.
  exists (sorted_desc total_questions l).
  split; [apply sorted_desc_perm|].
  split; [apply (sorted_desc_sorted total_questions)|].
  split; [intros k; apply sorted_desc_stable|].
  split; [apply text_present_stats_written | apply html_present_stats_written].
Qed.

(** C2: in the report of each presenter the row of rank 0 carries the
    gold medal (U+1F947) after the user name, the row of rank 1 the
    silver medal (U+1F948), the row of rank 2 the bronze medal (U+1F949)
    and a row of rank 3 or more carries nothing after the user name,
    whatever the number of rows. *)
Theorem medals_on_first_three (l : list UserStats) days msg :
  present_stats TextPresenter l days msg
  = text_report
      (λ i, match i with
            | 0%nat => [32%N; 0x1F947%N]
            | 1%nat => [32%N; 0x1F948%N]
            | 2%nat => [32%N; 0x1F949%N]
            | _ => []
            end)
      (sorted_desc total_questions l) days msg
  ∧ present_stats HtmlPresenter l days msg
    = html_report
        (λ i, match i with
              | 0%nat => lit " <span class=" ++ [34%N] ++ lit "medal"
                           ++ [34%N] ++ lit ">" ++ [0x1F947%N] ++ lit "</span>"
              | 1%nat => lit " <span class=" ++ [34%N] ++ lit "medal"
                           ++ [34%N] ++ lit ">" ++ [0x1F948%N] ++ lit "</span>"
              | 2%nat => lit " <span class=" ++ [34%N] ++ lit "medal"
                           ++ [34%N] ++ lit ">" ++ [0x1F949%N] ++ lit "</span>"
              | _ => []
              end)
        (sorted_desc total_questions l) days msg.
Proof.
  split; [apply text_present_stats_written | apply html_present_stats_written].
Qed.

(** C6, as amended: for the empty list and a number of days that the
    interpreter converts to a string, both presenters return a report
    and raise nothing: the head of the report, with the number of days in
    its title, followed at once by the tail, with no row between them. *)
Theorem empty_stats_report (days : Z) (msg : option str) :
  within_digit_limit days = true →
  Dyn.present_stats TextPresenter [] days msg
  = Dyn.Ok (text_report_head days ++ text_report_tail msg)
  ∧ Dyn.present_stats HtmlPresenter [] days msg
    = Dyn.Ok (html_report_head days ++ html_report_tail msg).
Proof.
  intros Hd.
  pose proof (present_stats_of_stats TextPresenter [] days msg Hd) as Ht.
  pose proof (present_stats_of_stats HtmlPresenter [] days msg Hd) as Hh.
  cbn [map] in Ht, Hh. rewrite Ht, Hh by constructor.
  cbn [present_stats].
  by rewrite text_present_stats_written, html_present_stats_written.
Qed.

Lemma empty_stats_report_witness :
  Dyn.present_stats TextPresenter [] 7 None
  = Dyn.Ok (text_report_head 7 ++ text_report_tail None)
  ∧ Dyn.present_stats HtmlPresenter [] 7 None
    = Dyn.Ok (html_report_head 7 ++ html_report_tail None).
Proof. apply (empty_stats_report 7 None). reflexivity. Defined.

(** C6, as stated, fails: for a number of days of 4301 digits the
    conversion of the number for the title raises [ValueError], in both
    presenters. *)
Lemma too_many_days_raise :
  digits Dyn.too_many_days = 4301%nat
  ∧ Dyn.present_stats TextPresenter [] Dyn.too_many_days None
    = Dyn.Raise Dyn.ValueError
  ∧ Dyn.present_stats HtmlPresenter [] Dyn.too_many_days None
    = Dyn.Raise Dyn.ValueError.
Proof. split; [|split]; vm_compute; reflexivity. Qed.

(** ** Reading the numbers back from the report *)

Lemma one_line_not_elem (s : str) : 10%N ∉ s ↔ one_line s.
Proof.
  rewrite Forall_forall. split.
  - intros H c Hc ->. by apply H.
  - intros H Hin. by apply (H _ Hin).
Qed.

Lemma split_lines_line (a rest : str) :
  one_line a → split_lines (line a ++ rest) = a :: split_lines rest.
Proof.
  induction 1 as [|c a Hc _ IH]; [done|].
  change (line (c :: a) ++ rest) with (c :: (line a ++ rest)).
  cbn [split_lines]. rewrite IH.
  by destruct (N.eqb_spec c 10).
Qed.

Lemma split_lines_lines (ls : list str) (rest : str) :
  Forall (λ a, one_line a) ls →
  split_lines (mjoin (map line ls) ++ rest) = ls ++ split_lines rest.
Proof.
  induction 1 as [|a ls Ha _ IH]; [done|].
  cbn [map]. rewrite mjoin_cons_str, <- app_assoc, split_lines_line by done.
  by rewrite IH.
Qed.

Lemma uint_one_line d : one_line (lit (NilEmpty.string_of_uint d)).
Proof. induction d; simpl; constructor; done. Qed.

Lemma str_of_int_one_line (n : Z) : one_line (str_of_int n).
Proof.
  unfold str_of_int.
  assert (∀ d, one_line (lit (NilZero.string_of_uint d))) as Hu.
  { intros d. pose proof (uint_one_line d). destruct d; try done.
    by constructor. }
  destruct (Z.to_int n); simpl; [apply Hu|].
  constructor; [done | apply Hu].
Qed.

Lemma ljust_one_line (w : nat) (s : str) : one_line s → one_line (ljust w s).
Proof.
  intros Hs. unfold ljust. apply Forall_app. split; [done|].
  by apply Forall_replicate.
Qed.

Lemma no_newline_one_line (s : str) : no_newline s = true → one_line s.
Proof.
  induction s as [|c s IH]; simpl; [constructor|].
  intros [Hc Hs]%andb_true_iff. constructor; [|by apply IH].
  by destruct (N.eqb_spec c 10).
Qed.

(** A literal without a newline, by evaluation. *)
Ltac literal_one_line :=
  apply no_newline_one_line; vm_compute; reflexivity.

Ltac one_line_parts :=
  repeat first
    [ assumption
    | apply str_of_int_one_line
    | apply ljust_one_line
    | literal_one_line
    | apply Forall_app; split
    | apply Forall_cons; split; [done|]
    | apply Forall_nil_2 ].

Lemma text_row_one_line (i : nat) (s : UserStats) :
  one_line (username s) → one_line (Text.row i s).
Proof.
  intros Hu. unfold Text.row.
  assert (one_line (Text.username_display i s)) as Hd.
  { unfold Text.username_display.
    destruct (medal_of_rank i) as [[]|]; one_line_parts. }
  one_line_parts.
Qed.

Lemma html_row_one_line (i : nat) (s : UserStats) :
  one_line (username s) → Forall (λ a, one_line a) (Html.row i s).
Proof.
  intros Hu. unfold Html.row, Html.cell, Html.username_cell.
  assert (one_line (Html.row_class i)) as Hc
    by (destruct i; literal_one_line).
  assert (one_line (Html.medal_markup i)) as Hm
    by (destruct i as [|[|[|i]]]; literal_one_line).
  do 7 (apply Forall_cons_2; [one_line_parts|]). apply Forall_nil_2.
Qed.

(** The lines of the text report, after the empty first line, are the
    parts the report was joined from, as far as the rows go. *)
Lemma text_report_lines (l : list UserStats) days msg (k : nat) :
  Forall (λ u, one_line (username u)) l →
  (1 ≤ k < 4 + length l)%nat →
  split_lines (Text.present_stats l days msg) !! S k
  = Text.output l days msg !! k.
Proof.
  intros Hl Hk.
  set (body := lit "LeetCode Statistics (Last " ++ str_of_int days
               ++ lit " Days)").
  set (rows := imap Text.row (sorted_desc total_questions l)).
  set (known := [Text.rule; Text.column_header; Text.rule] ++ rows).
  assert (∃ others last,
            Text.output l days msg
            = ([Text.title days] ++ known ++ others) ++ [last])
    as (others & last & Hout).
  { unfold Text.output, known. fold rows.
    destruct (truthy msg).
    - exists [Text.rule], (default [] msg). by rewrite <- !app_assoc.
    - exists [], Text.rule. by rewrite <- !app_assoc. }
  assert (Forall (λ a, one_line a) ([] :: body :: known)) as Hlines.
  { unfold known.
    do 5 (apply Forall_cons_2; [unfold body; one_line_parts|]).
    apply Forall_forall. intros row Hrow.
    apply elem_of_lookup_imap_1 in Hrow as (i & s & -> & Hi).
    apply text_row_one_line.
    assert (s ∈ l) as Hs.
    { rewrite <- (sorted_desc_perm total_questions l).
      by eapply list_elem_of_lookup_2. }
    rewrite Forall_forall in Hl. by apply Hl. }
  assert (length known = (3 + length l)%nat) as Hlen.
  { unfold known, rows.
    by rewrite length_app, length_imap, sorted_desc_length. }
  unfold Text.present_stats. rewrite Hout, join_lines.
  rewrite !map_app, !mjoin_app_str, <- !app_assoc.
  assert (mjoin (map line [Text.title days]) ++ mjoin (map line known)
            ++ mjoin (map line others) ++ last
          = mjoin (map line ([] :: body :: known))
              ++ mjoin (map line others) ++ last) as ->.
  { cbn [map]. rewrite !mjoin_cons_str. unfold Text.title, line. fold body.
    cbn [mjoin list_join app]. by rewrite <- !app_assoc. }
  rewrite split_lines_lines by done.
  destruct k as [|k]; [lia|].
  cbn [app lookup list_lookup].
  etrans; [apply lookup_app_l; lia|]. symmetry. apply lookup_app_l. lia.
Qed.

(** The lines of the HTML report are the parts the report was joined
    from, as far as the rows go. *)
Lemma html_report_lines (l : list UserStats) days msg (k : nat) :
  Forall (λ u, one_line (username u)) l →
  (k < 28 + 7 * length l)%nat →
  split_lines (Html.present_stats l days msg) !! k
  = Html.html_parts l days msg !! k.
Proof.
  intros Hl Hk.
  set (rows := mjoin (imap Html.row (sorted_desc total_questions l))).
  set (known := Html.document_head ++ Html.stats_header days ++ rows).
  set (others := [lit "</table>"]
                   ++ (if truthy msg
                       then [Html.message_div (default [] msg)] else [])
                   ++ [lit "</body>"]).
  assert (Html.html_parts l days msg = (known ++ others) ++ [lit "</html>"])
    as Hparts.
  { unfold Html.html_parts, known, others. fold rows.
    by rewrite <- !app_assoc. }
  assert (Forall (λ a, one_line a) known) as Hlines.
  { unfold known. apply Forall_app. split.
    { unfold Html.document_head.
      repeat (apply Forall_cons_2; [literal_one_line|]).
      apply Forall_nil_2. }
    apply Forall_app. split.
    { unfold Html.stats_header.
      repeat (apply Forall_cons_2; [one_line_parts|]).
      apply Forall_nil_2. }
    unfold rows. apply Forall_forall. intros a Ha.
    apply list_elem_of_join in Ha as (row & Ha & Hrow).
    apply elem_of_lookup_imap_1 in Hrow as (i & s & -> & Hi).
    assert (s ∈ l) as Hs.
    { rewrite <- (sorted_desc_perm total_questions l).
      by eapply list_elem_of_lookup_2. }
    rewrite Forall_forall in Hl.
    pose proof (html_row_one_line i s (Hl s Hs)) as Hrow.
    rewrite Forall_forall in Hrow. by apply Hrow. }
  assert (length known = (28 + 7 * length l)%nat) as Hlen.
  { unfold known, rows.
    rewrite !length_app, length_join.
    rewrite <- (sorted_desc_length total_questions l).
    generalize (sorted_desc total_questions l) as r. intros r.
    assert (sum_list (length <$> imap Html.row r) = (7 * length r)%nat) as ->;
      [|simpl; lia].
    generalize Html.row, html_row_length. intros f Hf.
    revert f Hf. induction r as [|x r IH]; intros f Hf; [done|].
    rewrite imap_cons, fmap_cons. cbn [sum_list sum_list_with length].
    unfold id. rewrite Hf, IH; [lia|]. intros; apply Hf. }
  unfold Html.present_stats. rewrite Hparts, join_lines.
  rewrite map_app, mjoin_app_str, <- app_assoc.
  rewrite split_lines_lines by done.
  rewrite <- !app_assoc.
  by rewrite !lookup_app_l by lia.
Qed.

Lemma within_columns_fits (i : nat) (s : UserStats) :
  within_columns i s → fits_columns i s.
Proof.
  intros (Hu & Hrest). split; [|exact Hrest].
  unfold Text.username_display.
  destruct i as [|[|[|i]]]; cbn [medal_of_rank text_medal] in *; try done.
  by rewrite app_nil_r in Hu.
Qed.

Lemma html_report_row_lines (l : list UserStats) days msg i s :
  Forall (λ u, one_line (username u)) l →
  sorted_desc total_questions l !! i = Some s →
  take 7 (drop (28 + i * 7) (split_lines (Html.present_stats l days msg)))
  = Html.row i s.
Proof.
  intros Hl Hi.
  assert (i < length l)%nat as Hlt.
  { rewrite <- (sorted_desc_length total_questions l).
    by eapply lookup_lt_Some. }
  apply list_eq. intros j.
  destruct (decide (j < 7)%nat) as [Hj|Hj].
  - rewrite lookup_take_lt, lookup_drop by done.
    rewrite html_report_lines by (done || lia).
    rewrite <- Nat.add_assoc. by apply html_parts_lookup.
  - rewrite lookup_take_ge by lia. symmetry.
    apply lookup_ge_None. simpl. lia.
Qed.

(** C7, as amended: when no user name holds a newline, the four numbers
    of the user of rank [i] are read back exactly from the rendered HTML
    report, cut at its newlines, by extracting the cells of the seven
    lines of the user's row; and from line [5 + i] of the rendered text
    report, split on the fixed-width column boundaries, whenever the row
    fits its columns. *)
Theorem numbers_read_back (l : list UserStats) days msg i s :
  Forall (λ u, no_newline (username u) = true) l →
  sorted_desc total_questions l !! i = Some s →
  html_parse_row
    (take 7 (drop (28 + i * 7)
               (split_lines (present_stats HtmlPresenter l days msg))))
  = Some (numbers s)
  ∧ (within_columns i s →
     ∃ row, split_lines (present_stats TextPresenter l days msg)
              !! (5 + i)%nat = Some row
            ∧ text_parse_row row = Some (numbers s)).
Proof.
  intros Hl Hi.
  assert (Forall (λ u, one_line (username u)) l) as Hl'.
  { eapply Forall_impl; [exact Hl|]. intros u. apply no_newline_one_line. }
  assert (i < length l)%nat as Hlt.
  { rewrite <- (sorted_desc_length total_questions l).
    by eapply lookup_lt_Some. }
  split.
  - change (present_stats HtmlPresenter l days msg)
      with (Html.present_stats l days msg).
    rewrite (html_report_row_lines _ _ _ _ _ Hl' Hi).
    apply html_parse_row_row.
  - intros Hfit. exists (Text.row i s). split.
    + change (present_stats TextPresenter l days msg)
        with (Text.present_stats l days msg).
      change (5 + i)%nat with (S (4 + i)).
      rewrite text_report_lines by (done || lia).
      by apply text_output_lookup.
    + by apply text_parse_row_fits, within_columns_fits.
Qed.

Lemma numbers_read_back_witness :
  html_parse_row
    (take 7 (drop 35 (split_lines (present_stats HtmlPresenter sample 7 None))))
  = Some (10, 2, 2, 6)
  ∧ ∃ row, split_lines (present_stats TextPresenter sample 7 None) !! 6%nat
           = Some row
           ∧ text_parse_row row = Some (10, 2, 2, 6).
Proof.
  assert (Forall (λ u, no_newline (username u) = true) sample) as Hl.
  { repeat (apply Forall_cons_2; [reflexivity|]). apply Forall_nil_2. }
  destruct (numbers_read_back sample 7 None 1
              (mkUserStats (lit "bob") 10 2 2 6) Hl eq_refl) as [Hh Ht].
  split; [exact Hh|]. apply Ht.
  unfold within_columns. cbn [username total_questions easy_count
    medium_count hard_count text_medal]. vm_compute. repeat split; lia.
Defined.

(** C7, as stated, fails on the rendered reports.  The name of
    [long_name_user] runs over its column, so the field of the total in
    its line of the text report holds no number.  The name of
    [two_line_user] fits its column but holds a newline, so the line at
    the place of its row is the first half of the name.  The name of
    [cell_injecting_user] holds four lines that are table cells, and the
    cells extracted from the seven lines at the place of its row are
    these, not the numbers of the user. *)
Lemma rendered_rows_not_read_back :
  (∃ row,
     split_lines (present_stats TextPresenter [long_name_user] 7 None)
       !! 5%nat = Some row
     ∧ field 26 15 row = lit "ame_123 " ++ [0x1F947%N] ++ lit " 5"
     ∧ text_parse_row row = None)
  ∧ (within_columns 0 two_line_user
     ∧ split_lines (present_stats TextPresenter [two_line_user] 7 None)
         !! 5%nat = Some (lit "a")
     ∧ text_parse_row (lit "a") = None)
  ∧ (html_parse_row
       (take 7 (drop 28
                  (split_lines
                     (present_stats HtmlPresenter [cell_injecting_user]
                        7 None))))
     = Some (9, 9, 9, 9)
     ∧ numbers cell_injecting_user = (5, 2, 2, 1)).
Proof.
  split; [|split].
  - eexists. split; [by vm_compute|]. split; by vm_compute.
  - split; [|split; by vm_compute].
    unfold within_columns. vm_compute. repeat split; lia.
  - split; by vm_compute.
Qed.

(** * Further properties *)

(** ** The files written *)

Lemma target_cases (self : BasePresenter) (filename : str) :
  extension self `suffix_of` filename ∧ target self filename = filename
  ∨ ¬ extension self `suffix_of` filename
    ∧ target self filename = filename ++ extension self.
Proof.
  destruct (decide (extension self `suffix_of` filename)) as [Hs|Hs];
    [left|right]; (split; [done|]).
  - apply endswith_suffix in Hs.
    destruct self; cbn [extension target] in *;
      unfold Text.target, Html.target; by rewrite Hs.
  - assert (endswith filename (extension self) = false) as He.
    { destruct (endswith filename (extension self)) eqn:E; [|done].
      by apply endswith_suffix in E. }
    destruct self; cbn [extension target] in *;
      unfold Text.target, Html.target; by rewrite He.
Qed.

(** X2: the path written always ends with the extension of the
    presenter, and the path of a path is the path itself: the extension
    is added once, however often a name goes through [write_to_file]. *)
Theorem target_extension_once (self : BasePresenter) (filename : str) :
  extension self `suffix_of` target self filename
  ∧ target self (target self filename) = target self filename.
Proof.
  assert (extension self `suffix_of` target self filename) as Hs.
  { destruct (target_cases self filename) as [[Hs ->]|[_ ->]]; [done|].
    by eexists. }
  split; [done|].
  destruct (target_cases self (target self filename)) as [[_ H]|[H _]];
    [done | by destruct H].
Qed.

Lemma write_to_file_insert (self : BasePresenter) (filename content : str)
    (fs : filesystem) :
  write_to_file self filename content fs
  = <[target self filename := content]> fs.
Proof. by destruct self. Qed.

(** X3: a second write under the same name, with or without the
    extension, replaces the content of the first: the file system is the
    one the second write alone produces. *)
Theorem write_to_file_replaces (self : BasePresenter)
    (filename first second : str) (fs : filesystem) :
  write_to_file self filename second
    (write_to_file self filename first fs)
  = write_to_file self filename second fs
  ∧ write_to_file self (target self filename) second
      (write_to_file self filename first fs)
    = write_to_file self filename second fs.
Proof.
  rewrite !write_to_file_insert.
  assert (target self (target self filename) = target self filename) as ->.
  { destruct (target_cases self (target self filename)) as [[_ H]|[H _]];
      [done|]. destruct H.
    destruct (target_cases self filename) as [[Hs ->]|[_ ->]]; [done|].
    by eexists. }
  by rewrite insert_insert_eq.
Qed.

Lemma last_suffix (s suffix : str) (c : char) :
  suffix `suffix_of` s → last suffix = Some c → last s = Some c.
Proof.
  intros [k ->] Hc. destruct suffix as [|x suffix _] using rev_ind; [done|].
  rewrite app_assoc, last_snoc. by rewrite last_snoc in Hc.
Qed.

Lemma text_html_targets_differ (f g : str) : Text.target f ≠ Html.target g.
Proof.
  intros E.
  assert (last (Text.target f) = Some 116%N) as Ht.
  { destruct (target_cases TextPresenter f) as [[Hs H]|[_ H]];
      cbn [extension target] in *; rewrite H.
    - by apply (last_suffix _ _ _ Hs).
    - apply (last_suffix _ (lit ".txt")); [by eexists | done]. }
  assert (last (Html.target g) = Some 108%N) as Hh.
  { destruct (target_cases HtmlPresenter g) as [[Hs H]|[_ H]];
      cbn [extension target] in *; rewrite H.
    - by apply (last_suffix _ _ _ Hs).
    - apply (last_suffix _ (lit ".html")); [by eexists | done]. }
  rewrite E, Hh in Ht. discriminate Ht.
Qed.

(** X4: the text presenter and the HTML presenter never write to the
    same path, whatever the two file names: after both have written, in
    either order, each file holds its own report. *)
Theorem text_and_html_files_apart (f g text html : str) (fs : filesystem) :
  Text.target f ≠ Html.target g
  ∧ write_to_file TextPresenter f text (write_to_file HtmlPresenter g html fs)
    = write_to_file HtmlPresenter g html (write_to_file TextPresenter f text fs)
  ∧ write_to_file TextPresenter f text (write_to_file HtmlPresenter g html fs)
      !! Text.target f = Some text
  ∧ write_to_file TextPresenter f text (write_to_file HtmlPresenter g html fs)
      !! Html.target g = Some html.
Proof.
  pose proof (text_html_targets_differ f g) as Hne.
  split; [done|]. simpl. unfold Text.write_to_file, Html.write_to_file.
  split; [by apply insert_insert_ne|].
  split; [apply lookup_insert_eq|].
  rewrite lookup_insert_ne by done. apply lookup_insert_eq.
Qed.

(** ** The layout of the text rows *)

Lemma length_ljust_max (w : nat) (s : str) :
  length (ljust w s) = (w `max` length s)%nat.
Proof. unfold ljust. rewrite length_app, length_replicate. lia. Qed.

(** X5: a field is padded, never cut, so a text row is as wide as its
    five fields, each at least as wide as its column, plus the four
    spaces between them; the medal adds two code points to the name on
    the first three rows; the row is as wide as the column header (74
    code points) exactly when it fits its columns. *)
Theorem text_row_width (i : nat) (s : UserStats) :
  length (Text.row i s)
  = (25 `max` length (Text.username_display i s)
     + 15 `max` length (str_of_int (total_questions s))
     + 10 `max` length (str_of_int (easy_count s))
     + 10 `max` length (str_of_int (medium_count s))
     + 10 `max` length (str_of_int (hard_count s)) + 4)%nat
  ∧ length (Text.username_display i s)
    = (length (username s) + if decide (i < 3)%nat then 2 else 0)%nat
  ∧ length Text.column_header = 74%nat
  ∧ (length (Text.row i s) = 74%nat ↔ fits_columns i s).
Proof.
  assert (length (Text.row i s)
          = (25 `max` length (Text.username_display i s)
             + 15 `max` length (str_of_int (total_questions s))
             + 10 `max` length (str_of_int (easy_count s))
             + 10 `max` length (str_of_int (medium_count s))
             + 10 `max` length (str_of_int (hard_count s)) + 4)%nat) as Hw.
  { unfold Text.row.
    repeat (rewrite length_app, length_ljust_max; cbn [length]).
    rewrite length_ljust_max. lia. }
  split; [done|]. split; [|split; [done|]].
  - unfold Text.username_display.
    destruct i as [|[|[|i]]]; cbn [medal_of_rank]; case_decide; try lia;
      rewrite ?length_app; simpl length; lia.
  - rewrite Hw. unfold fits_columns. lia.
Qed.

(** ** The HTML rows and the end of the HTML document *)



Lemma length_html_rows (r : list UserStats) :
  length (mjoin (imap Html.row r)) = (7 * length r)%nat.
Proof.
  rewrite length_join.
  generalize Html.row, html_row_length. intros f Hf.
  revert f Hf. induction r as [|x r IH]; intros f Hf; [done|].
  rewrite imap_cons, fmap_cons. cbn [sum_list sum_list_with length].
  unfold id. rewrite Hf, IH; [lia|]. intros; apply Hf.
Qed.

Lemma html_parts_tail (l : list UserStats) days msg :
  drop (28 + 7 * length l) (Html.html_parts l days msg)
  = [lit "</table>"]
      ++ (if truthy msg then [Html.message_div (default [] msg)] else [])
      ++ [lit "</body>"; lit "</html>"].
Proof.
  unfold Html.html_parts.
  rewrite (app_assoc Html.document_head), app_assoc.
  apply drop_app_length'.
  rewrite !length_app, length_html_rows, sorted_desc_length. simpl. lia.
Qed.

(** X7: a non-empty completion message follows the closing of the
    table, inside a [div] of class [message], and the closing of the
    body and of the document follow it: these four are the last parts of
    the document and the last four lines of the report returned. *)
Theorem html_message_after_table (l : list UserStats) days (m : str) :
  m ≠ [] →
  drop (28 + 7 * length l) (Html.html_parts l days (Some m))
  = [lit "</table>"; lit "<div class='message'>" ++ m ++ lit "</div>";
     lit "</body>"; lit "</html>"]
  ∧ ([10%N] ++ lit "</table>"
       ++ [10%N] ++ lit "<div class='message'>" ++ m ++ lit "</div>"
       ++ [10%N] ++ lit "</body>"
       ++ [10%N] ++ lit "</html>")
    `suffix_of` present_stats HtmlPresenter l days (Some m).
Proof.
  intros Hm.
  assert (drop (28 + 7 * length l) (Html.html_parts l days (Some m))
          = [lit "</table>"; lit "<div class='message'>" ++ m ++ lit "</div>";
             lit "</body>"; lit "</html>"]) as Htail.
  { rewrite html_parts_tail. by destruct m. }
  split; [exact Htail|].
  change (present_stats HtmlPresenter l days (Some m))
    with (join [10%N] (Html.html_parts l days (Some m))).
  rewrite <- (take_drop (28 + 7 * length l) (Html.html_parts l days (Some m))).
  rewrite Htail.
  set (before := take (28 + 7 * length l) (Html.html_parts l days (Some m))).
  assert (before ≠ []) as Hne.
  { unfold before, Html.html_parts, Html.document_head. by cbn [app take]. }
  assert (before
            ++ [lit "</table>";
                lit "<div class='message'>" ++ m ++ lit "</div>";
                lit "</body>"; lit "</html>"]
          = (((before ++ [lit "</table>"])
                ++ [lit "<div class='message'>" ++ m ++ lit "</div>"])
               ++ [lit "</body>"]) ++ [lit "</html>"]) as ->.
  { by rewrite <- !app_assoc. }
  rewrite !join_snoc by (by destruct before).
  exists (join [10%N] before). by rewrite <- !app_assoc.
Qed.

Lemma html_message_after_table_witness :
  drop (28 + 7 * 3) (Html.html_parts sample 7 (Some (lit "done")))
  = [lit "</table>"; lit "<div class='message'>done</div>";
     lit "</body>"; lit "</html>"]
  ∧ ([10%N] ++ lit "</table>"
       ++ [10%N] ++ lit "<div class='message'>done</div>"
       ++ [10%N] ++ lit "</body>"
       ++ [10%N] ++ lit "</html>")
    `suffix_of` present_stats HtmlPresenter sample 7 (Some (lit "done")).
Proof.
  apply (html_message_after_table sample 7 (lit "done")). discriminate.
Defined.

(** X8: whatever the records and the message, the HTML report opens
    with the document type and the [<html>] tag and ends with the closing
    of the body and of the document. *)
Theorem html_document_closed (l : list UserStats) days msg :
  (lit "<!DOCTYPE html>" ++ [newline] ++ lit "<html>" ++ [newline])
    `prefix_of` Html.present_stats l days msg
  ∧ ([newline] ++ lit "</body>" ++ [newline] ++ lit "</html>")
    `suffix_of` Html.present_stats l days msg.
Proof.
  unfold Html.present_stats. split.
  - unfold Html.html_parts, Html.document_head. cbn [app].
    rewrite !join_cons. eexists. by rewrite <- !app_assoc.
  - rewrite <- (take_drop (28 + 7 * length l) (Html.html_parts l days msg)).
    rewrite html_parts_tail.
    set (before := take (28 + 7 * length l) (Html.html_parts l days msg)
                     ++ [lit "</table>"]
                     ++ (if truthy msg
                         then [Html.message_div (default [] msg)] else [])).
    assert (take (28 + 7 * length l) (Html.html_parts l days msg)
            ++ [lit "</table>"]
            ++ (if truthy msg
                then [Html.message_div (default [] msg)] else [])
            ++ [lit "</body>"; lit "</html>"]
            = (before ++ [lit "</body>"]) ++ [lit "</html>"]) as ->.
    { unfold before. by rewrite <- !app_assoc. }
    assert (before ≠ []) as Hne.
    { unfold before. intros E. apply app_eq_nil in E as [_ E].
      discriminate E. }
    rewrite join_snoc by (by destruct before).
    rewrite join_snoc by done.
    exists (join [newline] before). by rewrite <- !app_assoc.
Qed.

(** ** What the ranking depends on *)

Section RankingFacts.
Context {A : Type} (key : A → Z).

Lemma insert_desc_front (x : A) (l : list A) :
  Forall (λ y, key y ≤ key x) l → insert_desc key x l = x :: l.
Proof.
  destruct 1 as [|y l Hy _]; [done|]. simpl.
  by destruct (Z.leb_spec (key y) (key x)); [|lia].
Qed.

(** A list that is in descending order already is left as it is. *)
Lemma sorted_desc_ranked (l : list A) :
  StronglySorted (descending key) l → sorted_desc key l = l.
Proof.
  induction 1 as [|x l _ IH Hx]; [done|]. simpl. rewrite IH.
  by apply insert_desc_front.
Qed.

Lemma NoDup_key_inj (l : list A) (a b : A) :
  NoDup (map key l) → a ∈ l → b ∈ l → key a = key b → a = b.
Proof.
  induction l as [|x l IH]; intros Hnd Ha Hb Hk; [by apply elem_of_nil in Ha|].
  apply NoDup_cons in Hnd as [Hx Hnd].
  assert (∀ y, y ∈ l → key y ≠ key x) as Hother.
  { intros y Hy E. apply Hx. rewrite <- E. apply list_elem_of_fmap. eauto. }
  apply elem_of_cons in Ha as [->|Ha], Hb as [->|Hb]; try done.
  - by destruct (Hother b Hb).
  - by destruct (Hother a Ha).
  - by apply IH.
Qed.

(** Two descending lists of the same elements are the same list, when
    no two elements have the same key. *)
Lemma descending_unique (l1 l2 : list A) :
  NoDup (map key l1) → l1 ≡ₚ l2 →
  StronglySorted (descending key) l1 → StronglySorted (descending key) l2 →
  l1 = l2.
Proof.
  revert l2. induction l1 as [|a l1 IH]; intros l2 Hnd Hp H1 H2.
  { by apply Permutation_nil_l in Hp. }
  destruct l2 as [|b l2]; [by apply Permutation_nil_r in Hp|].
  apply StronglySorted_inv in H1 as [H1 Ha], H2 as [H2 Hb].
  rewrite Forall_forall in Ha, Hb.
  assert (a = b) as <-.
  { assert (a ∈ b :: l2) as Hain by (rewrite <- Hp; apply list_elem_of_here).
    assert (b ∈ a :: l1) as Hbin by (rewrite Hp; apply list_elem_of_here).
    apply elem_of_cons in Hain as [Hab|Hain]; [done|].
    apply elem_of_cons in Hbin as [Hba|Hbin]; [done|].
    apply (NoDup_key_inj (a :: l1)); [done|apply list_elem_of_here| |].
    - by apply list_elem_of_further.
    - specialize (Ha b Hbin). specialize (Hb a Hain).
      unfold descending in *. lia. }
  f_equal. apply IH; [|by apply Permutation_cons_inv in Hp|done|done].
  by apply NoDup_cons in Hnd as [_ Hnd].
Qed.

Lemma sorted_desc_perm_eq (l1 l2 : list A) :
  NoDup (map key l1) → l1 ≡ₚ l2 → sorted_desc key l1 = sorted_desc key l2.
Proof.
  intros Hnd Hp. apply descending_unique.
  - by rewrite (sorted_desc_perm key l1).
  - by rewrite !(sorted_desc_perm key).
  - apply sorted_desc_sorted.
  - apply sorted_desc_sorted.
Qed.

End RankingFacts.

(** X9: ranking a ranked list changes nothing, so the report of the
    list in ranked order is the report of the list. *)
Theorem ranked_list_same_report (self : BasePresenter) (l : list UserStats)
    (days : Z) (msg : option str) :
  sorted_desc total_questions (sorted_desc total_questions l)
  = sorted_desc total_questions l
  ∧ present_stats self (sorted_desc total_questions l) days msg
    = present_stats self l days msg.
Proof.
  assert (sorted_desc total_questions (sorted_desc total_questions l)
          = sorted_desc total_questions l) as Hidem
    by apply sorted_desc_ranked, sorted_desc_sorted.
  split; [done|].
  destruct self; simpl;
    unfold Text.present_stats, Text.output, Html.present_stats,
      Html.html_parts; by rewrite Hidem.
Qed.

(** X10: when no two users have the same total, the report does not
    depend on the order in which the users are given. *)
Theorem report_order_insensitive (self : BasePresenter)
    (l1 l2 : list UserStats) (days : Z) (msg : option str) :
  NoDup (map total_questions l1) → l1 ≡ₚ l2 →
  present_stats self l1 days msg = present_stats self l2 days msg.
Proof.
  intros Hnd Hp.
  pose proof (sorted_desc_perm_eq total_questions l1 l2 Hnd Hp) as Heq.
  destruct self; simpl;
    unfold Text.present_stats, Text.output, Html.present_stats,
      Html.html_parts; by rewrite Heq.
Qed.

Lemma report_order_insensitive_witness :
  present_stats HtmlPresenter
    [mkUserStats (lit "carol") 5 5 0 0; mkUserStats (lit "alice") 10 5 3 2]
    7 None
  = present_stats HtmlPresenter
      [mkUserStats (lit "alice") 10 5 3 2; mkUserStats (lit "carol") 5 5 0 0]
      7 None.
Proof.
  apply report_order_insensitive.
  - simpl. apply NoDup_cons. split; [|apply NoDup_singleton].
    intros H%list_elem_of_singleton. discriminate H.
  - apply Permutation_swap.
Defined.



(** ** When the presenters raise *)

(** A computation that has returned: its first part has returned. *)
Ltac bind_inv H :=
  match type of H with
  | Dyn.bind (match ?x !! ?n with _ => _ end) _ = _ =>
      destruct (x !! n) eqn:?; cbn [Dyn.bind] in H; [|discriminate H]
  | Dyn.bind ?r _ = _ =>
      destruct r eqn:?; cbn [Dyn.bind] in H; [|discriminate H]
  end.

Lemma complete_not_missing (o : Dyn.object) :
  complete o ↔ ¬ Dyn.missing_field o.
Proof.
  unfold complete, Dyn.missing_field. split.
  - intros Hc (name & Hin & Hnone). destruct (Hc name Hin) as [v Hv].
    congruence.
  - intros Hm name Hin. destruct (o !! name) eqn:E; [by eexists|].
    destruct Hm. eauto.
Qed.

Lemma complete_lookups (o : Dyn.object) :
  complete o ↔
  is_Some (o !! "username") ∧ is_Some (o !! "total_questions")
  ∧ is_Some (o !! "easy_count") ∧ is_Some (o !! "medium_count")
  ∧ is_Some (o !! "hard_count").
Proof.
  unfold complete, Dyn.required. split.
  - intros H. repeat split; apply H; repeat constructor.
  - intros (? & ? & ? & ? & ?) name Hin.
    repeat (apply elem_of_cons in Hin as [->|Hin]); try done.
    by apply elem_of_nil in Hin.
Qed.

Lemma printable_lookups (o : Dyn.object) :
  printable o ↔
  (∀ v, o !! "username" = Some v → Dyn.value_within_limit v)
  ∧ (∀ v, o !! "total_questions" = Some v → Dyn.value_within_limit v)
  ∧ (∀ v, o !! "easy_count" = Some v → Dyn.value_within_limit v)
  ∧ (∀ v, o !! "medium_count" = Some v → Dyn.value_within_limit v)
  ∧ (∀ v, o !! "hard_count" = Some v → Dyn.value_within_limit v).
Proof.
  unfold printable, Dyn.required. split.
  - intros H. repeat split; intros v; apply H; repeat constructor.
  - intros (? & ? & ? & ? & ?) name v Hin.
    repeat (apply elem_of_cons in Hin as [->|Hin]); auto.
    by apply elem_of_nil in Hin.
Qed.

Lemma to_str_returns (v : Dyn.value) :
  (∃ x, Dyn.to_str v = Dyn.Ok x) ↔ Dyn.value_within_limit v.
Proof.
  destruct v as [n| |]; simpl; unfold Dyn.int_to_str.
  - destruct (within_digit_limit n); split; try done; try (by eexists).
    by intros [x Hx].
  - split; [done | by eexists].
  - split; [done | by eexists].
Qed.

Lemma format_left_returns (w : nat) (v : Dyn.value) :
  (∃ x, Dyn.format_left w v = Dyn.Ok x)
  ↔ v ≠ Dyn.VNone ∧ Dyn.value_within_limit v.
Proof.
  destruct v as [n| |]; simpl; unfold Dyn.int_to_str.
  - destruct (within_digit_limit n); cbn [Dyn.bind]; split.
    + done.
    + by eexists.
    + by intros [x Hx].
    + by intros [_ ?].
  - split; [done | by eexists].
  - split; [by intros [x Hx] | by intros [? _]].
Qed.

Lemma html_row_returns_iff (i : nat) (o : Dyn.object) :
  (∃ x, Dyn.html_row i o = Dyn.Ok x) ↔ complete o ∧ printable o.
Proof.
  split.
  - intros [x H]. split.
    { apply complete_not_missing. by eapply html_row_Ok_inv. }
    unfold Dyn.html_row, Dyn.getattr in H. repeat bind_inv H.
    apply printable_lookups.
    repeat split; intros v' Hv'; apply to_str_returns;
      match goal with
      | Hl : o !! _ = Some ?w |- ∃ _, Dyn.to_str v' = _ =>
          assert (v' = w) as -> by congruence; by eexists
      end.
  - intros [(Hu & Ht & He & Hm & Hh)%complete_lookups
            (Pu & Pt & Pe & Pm & Ph)%printable_lookups].
    destruct Hu as [u Hu], Ht as [t Ht], He as [e He], Hm as [m Hm],
      Hh as [h Hh].
    destruct (proj2 (to_str_returns u) (Pu _ Hu)) as [su Eu].
    destruct (proj2 (to_str_returns t) (Pt _ Ht)) as [st Et].
    destruct (proj2 (to_str_returns e) (Pe _ He)) as [se Ee].
    destruct (proj2 (to_str_returns m) (Pm _ Hm)) as [sm Em].
    destruct (proj2 (to_str_returns h) (Ph _ Hh)) as [sh Eh].
    unfold Dyn.html_row, Dyn.getattr. rewrite Hu, Ht, He, Hm, Hh.
    cbn [Dyn.bind]. rewrite Eu. cbn [Dyn.bind]. rewrite Et. cbn [Dyn.bind].
    rewrite Ee. cbn [Dyn.bind]. rewrite Em. cbn [Dyn.bind].
    rewrite Eh. cbn [Dyn.bind]. by eexists.
Qed.

Lemma sequence_returns {A : Type} (l : list (Dyn.result A)) :
  Forall (λ r, ∃ a, r = Dyn.Ok a) l → ∃ rs, Dyn.sequence l = Dyn.Ok rs.
Proof.
  induction 1 as [|r l [a ->] _ [rs IH]]; simpl; [by eexists|].
  rewrite IH. by eexists.
Qed.

Lemma sequence_imap_returns {A B : Type} (f : nat → A → Dyn.result B)
    (l : list A) :
  (∀ i a, a ∈ l → ∃ b, f i a = Dyn.Ok b) →
  ∃ rs, Dyn.sequence (imap f l) = Dyn.Ok rs.
Proof.
  intros Hf. apply sequence_returns, Forall_forall. intros r Hr.
  apply elem_of_lookup_imap_1 in Hr as (i & a & -> & Hi).
  apply Hf. by eapply list_elem_of_lookup_2.
Qed.

(** The keys [sorted] reads: it returns them, paired with their objects,
    exactly when every object has a total. *)
Lemma keys_returned (l : list Dyn.object) keyed :
  Dyn.sequence
    (map (λ x, Dyn.bind (Dyn.getattr x "total_questions")
                 (λ k, Dyn.Ok (k, x))) l) = Dyn.Ok keyed
  ↔ Forall (λ o : Dyn.object, is_Some (o !! "total_questions")) l
    ∧ keyed = zip (totals l) l.
Proof.
  revert keyed. induction l as [|o l IH]; intros keyed; simpl.
  - split; [by intros [= <-] | by intros [_ ->]].
  - unfold Dyn.getattr at 1. unfold totals. cbn [omap list_omap].
    fold (totals l). destruct (o !! "total_questions") as [k|] eqn:Hk; simpl.
    + destruct (Dyn.sequence _) as [rest|e]; simpl.
      * destruct (proj1 (IH rest) eq_refl) as [Hall ->]. split.
        -- intros [= <-]. split; [|done]. constructor; [by eexists | done].
        -- by intros [_ ->].
      * split; [done|]. intros [Hall ->].
        apply Forall_cons in Hall as [_ Hall].
        assert (Dyn.Raise e = Dyn.Ok (zip (totals l) l)) as Habs
          by (by apply IH). discriminate Habs.
    + split; [done|]. intros [Hall _].
      apply Forall_cons in Hall as [[v Hv] _]. congruence.
Qed.

Lemma length_totals (l : list Dyn.object) :
  Forall (λ o : Dyn.object, is_Some (o !! "total_questions")) l →
  length (totals l) = length l.
Proof.
  induction 1 as [|o l [v Hv] _ IH]; [done|].
  unfold totals in *. cbn [omap list_omap]. rewrite Hv. simpl. by rewrite IH.
Qed.

(** [sorted] returns exactly when every object has a total and there is
    at most one object or the totals can be ordered. *)
Lemma sorted_returns_iff (l : list Dyn.object) :
  (∃ r, Dyn.sorted l = Dyn.Ok r)
  ↔ Forall (λ o : Dyn.object, is_Some (o !! "total_questions")) l
    ∧ ((length l ≤ 1)%nat ∨ Dyn.orderable (totals l)).
Proof.
  unfold Dyn.sorted. split.
  - intros [r H]. repeat bind_inv H.
    match goal with Hk : Dyn.sequence _ = _ |- _ =>
      apply keys_returned in Hk as [Hall ->] end.
    split; [done|].
    match goal with Hs : Dyn.sort_desc _ = Dyn.Ok ?a |- _ =>
      assert (∃ r, Dyn.sort_desc (zip (totals l) l) = Dyn.Ok r) as Hret
        by (by exists a) end.
    apply sort_desc_returns in Hret.
    rewrite length_zip, fst_zip, length_totals in Hret
      by first [done | rewrite length_totals by done; lia].
    destruct Hret as [Hlen|Hord]; [left; lia | by right].
  - intros [Hall Hord].
    assert (Dyn.sequence
              (map (λ x, Dyn.bind (Dyn.getattr x "total_questions")
                           (λ k, Dyn.Ok (k, x))) l)
            = Dyn.Ok (zip (totals l) l)) as -> by (by apply keys_returned).
    simpl.
    destruct (proj2 (sort_desc_returns (zip (totals l) l))) as [r ->].
    + rewrite length_zip, fst_zip, length_totals
        by first [done | rewrite length_totals by done; lia].
      destruct Hord as [Hlen|Hord]; [left; lia | by right].
    + by eexists.
Qed.

Lemma complete_has_total (l : list Dyn.object) :
  Forall complete l →
  Forall (λ o : Dyn.object, is_Some (o !! "total_questions")) l.
Proof.
  intros Hall. eapply Forall_impl; [exact Hall|]. intros o Ho. apply Ho.
  unfold Dyn.required. apply list_elem_of_further, list_elem_of_here.
Qed.

(** The sort of complete records raises nothing but [TypeError]. *)
Lemma sorted_complete_raises (l : list Dyn.object) e :
  Forall (λ o : Dyn.object, is_Some (o !! "total_questions")) l →
  Dyn.sorted l = Dyn.Raise e → e = Dyn.TypeError.
Proof.
  intros Htot Hs. unfold Dyn.sorted in Hs.
  assert (Dyn.sequence
            (map (λ x, Dyn.bind (Dyn.getattr x "total_questions")
                         (λ k, Dyn.Ok (k, x))) l)
          = Dyn.Ok (zip (totals l) l)) as Hk by (by apply keys_returned).
  rewrite Hk in Hs. cbn [Dyn.bind] in Hs.
  destruct (Dyn.sort_desc (zip (totals l) l)) eqn:Hsort; [done|].
  cbn [Dyn.bind] in Hs. injection Hs as <-.
  by eapply sort_desc_raises.
Qed.

(** X12: the HTML presenter returns exactly when every record has the
    five attributes, there is at most one record or the totals can be
    ordered (all integers or all strings), and the number of days and
    every attribute that is an integer are within the limit of digits of
    the interpreter; the values of the attributes are not looked at
    otherwise, [None] included. *)
Theorem html_returns_iff (l : list Dyn.object) (days : Z) (msg : option str) :
  (∃ out, Dyn.present_stats HtmlPresenter l days msg = Dyn.Ok out)
  ↔ Forall complete l
    ∧ ((length l ≤ 1)%nat ∨ Dyn.orderable (totals l))
    ∧ within_digit_limit days = true
    ∧ Forall printable l.
Proof.
  cbn [Dyn.present_stats]. unfold Dyn.html_present_stats. split.
  - intros [out H]. repeat bind_inv H.
    match goal with
    | Hs : Dyn.sorted _ = Dyn.Ok ?r, Hq : Dyn.sequence _ = _,
      Hd : Dyn.int_to_str _ = _ |- _ =>
        pose proof (sorted_perm_dyn _ _ Hs) as Hperm;
        assert (∃ r', Dyn.sorted l = Dyn.Ok r') as Hret by (by exists r);
        apply sorted_returns_iff in Hret as [_ Hord];
        assert (∀ o, o ∈ l → complete o ∧ printable o) as Hrows;
        [intros o Ho; rewrite <- Hperm in Ho;
         destruct (sequence_imap_Ok_inv _ _ _ _ Hq Ho) as (i & b & Hrow);
         apply (html_row_returns_iff i); by eexists|];
        unfold Dyn.int_to_str in Hd;
        destruct (within_digit_limit days) eqn:Hdays; [|discriminate Hd]
    end.
    split; [apply Forall_forall; intros o Ho; by apply Hrows|].
    split; [done|]. split; [done|].
    apply Forall_forall. intros o Ho. by apply Hrows.
  - intros (Hall & Hord & Hdays & Hprint).
    destruct (proj2 (sorted_returns_iff l)) as [r Hr].
    { split; [by apply complete_has_total | done]. }
    rewrite Hr. cbn [Dyn.bind].
    rewrite (int_to_str_within days Hdays). cbn [Dyn.bind].
    destruct (sequence_imap_returns Dyn.html_row r) as [rows ->].
    { intros i o Ho. apply html_row_returns_iff.
      rewrite (sorted_perm_dyn _ _ Hr) in Ho.
      rewrite Forall_forall in Hall, Hprint. split; auto. }
    by eexists.
Qed.

(** What a text row that is produced tells about its object. *)
Lemma text_row_Ok_shape (i : nat) (o : Dyn.object) (x : str) :
  Dyn.text_row i o = Dyn.Ok x →
  (∀ name, name ∈ counts → o !! name ≠ Some Dyn.VNone)
  ∧ (o !! "username" = Some Dyn.VNone → (i < 3)%nat)
  ∧ printable o.
Proof.
  intros H. unfold Dyn.text_row, Dyn.getattr in H.
  bind_inv H. bind_inv H. repeat bind_inv H.
  repeat match goal with
         | Hf : Dyn.format_left ?w ?v = Dyn.Ok ?y |- _ =>
             assert (v ≠ Dyn.VNone ∧ Dyn.value_within_limit v)
               by (apply (format_left_returns w); by exists y);
             clear Hf
         end.
  assert (∀ v', o !! "username" = Some v' → Dyn.value_within_limit v')
    as Hname.
  { intros v' Hv'.
    match goal with
    | Hl : o !! "username" = Some ?w |- _ =>
        assert (v' = w) as -> by congruence
    end.
    destruct (medal_of_rank i); cbn [Dyn.bind] in *.
    - match goal with
      | Hm : Dyn.bind (Dyn.to_str ?w) _ = Dyn.Ok _ |- _ =>
          destruct (Dyn.to_str w) eqn:Hw; cbn [Dyn.bind] in Hm;
          [|discriminate Hm]
      end.
      apply to_str_returns. by eexists.
    - simplify_eq. tauto. }
  split; [|split].
  - intros name Hin. unfold counts in Hin.
    repeat (apply elem_of_cons in Hin as [->|Hin]);
      try (intros Hv; rewrite Hv in *; simplify_eq; tauto).
    by apply elem_of_nil in Hin.
  - intros Hu. destruct i as [|[|[|i]]]; try lia.
    cbn [medal_of_rank Dyn.bind] in *. simplify_eq. tauto.
  - apply printable_lookups.
    split; [exact Hname|].
    repeat split; intros v' Hv'; simplify_eq; tauto.
Qed.

(** X13: the text row of an object at rank [i] is produced exactly when
    the object has the five attributes, none of its four counts is
    [None], its user name is not [None] unless the row is one of the
    first three, where the name is turned into a string for the medal
    before it is formatted, and every attribute that is an integer is
    within the limit of digits of the interpreter. *)
Theorem text_row_returns_iff (i : nat) (o : Dyn.object) :
  (∃ x, Dyn.text_row i o = Dyn.Ok x)
  ↔ complete o
    ∧ (∀ name, name ∈ counts → o !! name ≠ Some Dyn.VNone)
    ∧ (o !! "username" = Some Dyn.VNone → (i < 3)%nat)
    ∧ printable o.
Proof.
  split.
  - intros [x H]. split.
    { by eapply complete_not_missing, text_row_Ok_inv. }
    by eapply text_row_Ok_shape.
  - intros (Hc & Hn & Hu & Hp).
    apply complete_lookups in Hc
      as ([u Eu] & [t Et] & [e Ee] & [m Em] & [h Eh]).
    apply printable_lookups in Hp as (Pu & Pt & Pe & Pm & Ph).
    assert (∀ w name v, name ∈ counts → o !! name = Some v →
              Dyn.value_within_limit v →
              ∃ x, Dyn.format_left w v = Dyn.Ok x) as Hfmt.
    { intros w name v Hin Hv Hlim. apply format_left_returns.
      split; [|done]. intros ->. by apply (Hn name). }
    assert (∃ c1,
              Dyn.bind
                (match medal_of_rank i with
                 | Some g => Dyn.bind (Dyn.to_str u)
                               (λ s, Dyn.Ok (Dyn.VStr (s ++ [space; glyph g])))
                 | None => Dyn.Ok u
                 end) (Dyn.format_left 25) = Dyn.Ok c1) as [c1 E1].
    { destruct (medal_of_rank i) eqn:Hrank.
      - destruct (proj2 (to_str_returns u) (Pu _ Eu)) as [su ->].
        cbn [Dyn.bind Dyn.format_left]. by eexists.
      - cbn [Dyn.bind]. apply format_left_returns. split; [|by apply Pu].
        intros ->. specialize (Hu Eu).
        by destruct i as [|[|[|i]]]; try lia. }
    destruct (Hfmt 15%nat "total_questions" t) as [c2 E2];
      [unfold counts; repeat constructor | done | by apply Pt |].
    destruct (Hfmt 10%nat "easy_count" e) as [c3 E3];
      [unfold counts; repeat constructor | done | by apply Pe |].
    destruct (Hfmt 10%nat "medium_count" m) as [c4 E4];
      [unfold counts; repeat constructor | done | by apply Pm |].
    destruct (Hfmt 10%nat "hard_count" h) as [c5 E5];
      [unfold counts; repeat constructor | done | by apply Ph |].
    unfold Dyn.text_row, Dyn.getattr. rewrite Eu. cbn [Dyn.bind].
    destruct (match medal_of_rank i with
              | Some g => Dyn.bind (Dyn.to_str u)
                            (λ s, Dyn.Ok (Dyn.VStr (s ++ [space; glyph g])))
              | None => Dyn.Ok u
              end) as [d|] eqn:Ed; cbn [Dyn.bind] in E1 |- *;
      [|discriminate E1].
    rewrite E1. cbn [Dyn.bind]. rewrite Et. cbn [Dyn.bind].
    rewrite E2. cbn [Dyn.bind]. rewrite Ee. cbn [Dyn.bind].
    rewrite E3. cbn [Dyn.bind]. rewrite Em. cbn [Dyn.bind].
    rewrite E4. cbn [Dyn.bind]. rewrite Eh. cbn [Dyn.bind].
    rewrite E5. cbn [Dyn.bind]. by eexists.
Qed.

(** X14: whenever the text presenter returns a report for a list, the
    HTML presenter returns one for it too. *)
Theorem text_returns_html_returns (l : list Dyn.object) (days : Z)
    (msg : option str) :
  (∃ out, Dyn.text_present_stats l days msg = Dyn.Ok out) →
  ∃ out, Dyn.html_present_stats l days msg = Dyn.Ok out.
Proof.
  intros [out H]. unfold Dyn.text_present_stats in H. repeat bind_inv H.
  unfold Dyn.html_present_stats.
  match goal with
  | Hs : Dyn.sorted _ = Dyn.Ok ?r, Hq : Dyn.sequence _ = _,
    Hd : Dyn.int_to_str _ = _ |- _ =>
      rewrite Hs, Hd; cbn [Dyn.bind];
      destruct (sequence_imap_returns Dyn.html_row r) as [rows ->];
        [intros i o Ho; apply html_row_returns_iff;
         destruct (sequence_imap_Ok_inv _ _ _ _ Hq Ho) as (j & b & Hrow);
         split;
         [by eapply complete_not_missing, text_row_Ok_inv
         |by eapply text_row_Ok_shape]
        |by eexists]
  end.
Qed.

Lemma text_returns_html_returns_witness :
  ∃ out, Dyn.html_present_stats [Dyn.malformed_object] 7 None = Dyn.Ok out.
Proof.
  apply text_returns_html_returns. eexists. vm_compute. reflexivity.
Defined.

(** X15: when every record has a total, there are two records or more
    and the totals cannot be ordered (they are not all integers and not
    all strings), both presenters raise [TypeError], from the sort and
    before any row is made. *)
Theorem unorderable_totals_raise (self : BasePresenter)
    (l : list Dyn.object) (days : Z) (msg : option str) :
  Forall (λ o : Dyn.object, is_Some (o !! "total_questions")) l →
  (2 ≤ length l)%nat →
  ¬ Dyn.orderable (totals l) →
  Dyn.present_stats self l days msg = Dyn.Raise Dyn.TypeError.
Proof.
  intros Hall Hlen Hord.
  assert (Dyn.sorted l = Dyn.Raise Dyn.TypeError) as Hs.
  { destruct (Dyn.sorted l) as [r|e] eqn:E.
    - assert (∃ r', Dyn.sorted l = Dyn.Ok r') as Hret by (by exists r).
      apply sorted_returns_iff in Hret as [_ [?|?]]; [lia|done].
    - f_equal. by eapply sorted_complete_raises. }
  destruct self; simpl;
    unfold Dyn.text_present_stats, Dyn.html_present_stats; by rewrite Hs.
Qed.

Lemma unorderable_totals_raise_witness :
  Dyn.present_stats TextPresenter mixed_totals 7 None
  = Dyn.Raise Dyn.TypeError.
Proof.
  apply unorderable_totals_raise.
  - repeat constructor; by eexists.
  - simpl. lia.
  - intros [H|H]; vm_compute in H.
    + apply Forall_cons in H as [_ H]. apply Forall_cons in H as [[n Hn] _].
      discriminate Hn.
    + apply Forall_cons in H as [[s Hs] _]. discriminate Hs.
Defined.

(** ** Where the exceptions come from *)

Lemma text_row_complete_raises (i : nat) (o : Dyn.object) e :
  complete o → Dyn.text_row i o = Dyn.Raise e → e ≠ Dyn.AttributeError.
Proof.
  intros ([u Eu] & [t Et] & [c Ec] & [m Em] & [h Eh])%complete_lookups.
  unfold Dyn.text_row, Dyn.getattr.
  rewrite Eu, Et, Ec, Em, Eh. cbn [Dyn.bind].
  destruct (medal_of_rank i); cbn [Dyn.bind].
  - destruct (Dyn.to_str u) eqn:E; cbn [Dyn.bind Dyn.format_left].
    + repeat match goal with
             | |- Dyn.bind ?r _ = _ → _ =>
                 let E := fresh "E" in
                 destruct r eqn:E; cbn [Dyn.bind];
                 [|apply format_left_raises in E as [[-> _]|[-> _]];
                   by intros [= <-]]
             end.
      done.
    + apply to_str_raises in E as [-> _]. by intros [= <-].
  - repeat match goal with
           | |- Dyn.bind ?r _ = _ → _ =>
               let E := fresh "E" in
               destruct r eqn:E; cbn [Dyn.bind];
               [|apply format_left_raises in E as [[-> _]|[-> _]];
                 by intros [= <-]]
           end.
    done.
Qed.

Lemma html_row_complete_raises (i : nat) (o : Dyn.object) e :
  complete o → Dyn.html_row i o = Dyn.Raise e → e ≠ Dyn.AttributeError.
Proof.
  intros ([u Eu] & [t Et] & [c Ec] & [m Em] & [h Eh])%complete_lookups.
  unfold Dyn.html_row, Dyn.getattr.
  rewrite Eu, Et, Ec, Em, Eh. cbn [Dyn.bind].
  repeat match goal with
         | |- Dyn.bind ?r _ = _ → _ =>
             let E := fresh "E" in
             destruct r eqn:E; cbn [Dyn.bind];
             [|apply to_str_raises in E as [-> _]; by intros [= <-]]
         end.
  done.
Qed.

(** X17: [AttributeError] is raised only for a missing attribute.  When
    every record has the five attributes, an exception of either
    presenter is a [TypeError], or a [ValueError] for an integer (the
    number of days or an attribute) beyond the limit of digits of the
    interpreter. *)
Theorem complete_records_raise_no_attribute_error (self : BasePresenter)
    (l : list Dyn.object) (days : Z) (msg : option str) (e : Dyn.exception) :
  Forall complete l →
  Dyn.present_stats self l days msg = Dyn.Raise e →
  e = Dyn.TypeError
  ∨ (e = Dyn.ValueError ∧ ¬ Dyn.ints_within_limit days l).
Proof.
  intros Hall H.
  assert (e ≠ Dyn.AttributeError) as Hne.
  { pose proof (complete_has_total l Hall) as Htot.
    assert (∀ (B : Type) r (f : nat → Dyn.object → Dyn.result B),
              Dyn.sorted l = Dyn.Ok r →
              (∀ i o e', complete o → f i o = Dyn.Raise e' →
                         e' ≠ Dyn.AttributeError) →
              Dyn.Raise e ∈ imap f r → e ≠ Dyn.AttributeError) as Hrows.
    { intros B r f Hs Hf Hin.
      apply elem_of_lookup_imap_1 in Hin as (i & o & Hrow & Hi).
      apply (Hf i o); [|done].
      rewrite Forall_forall in Hall. apply Hall.
      rewrite <- (sorted_perm_dyn _ _ Hs). by eapply list_elem_of_lookup_2. }
    destruct self; simpl in H;
      unfold Dyn.text_present_stats, Dyn.html_present_stats in H;
      (destruct (Dyn.sorted l) as [r|e'] eqn:Hs; cbn [Dyn.bind] in H;
       [|injection H as <-;
         by rewrite (sorted_complete_raises _ _ Htot Hs)]);
      (destruct (Dyn.int_to_str days) eqn:Hd; cbn [Dyn.bind] in H;
       [|injection H as <-; by apply int_to_str_raises in Hd as [-> _]]);
      (destruct (Dyn.sequence _) eqn:Hq in H; cbn [Dyn.bind] in H; [done|]);
      injection H as <-; apply sequence_raises in Hq.
    - by apply (Hrows _ r Dyn.text_row eq_refl text_row_complete_raises).
    - by apply (Hrows _ r Dyn.html_row eq_refl html_row_complete_raises). }
  destruct e; [done | by left | right].
  split; [done|]. by eapply present_stats_ValueError.
Qed.

Lemma complete_records_raise_no_attribute_error_witness :
  Forall complete too_many_hard
  ∧ ∃ e, Dyn.present_stats HtmlPresenter too_many_hard 7 None = Dyn.Raise e
         ∧ (e = Dyn.TypeError
            ∨ (e = Dyn.ValueError ∧ ¬ Dyn.ints_within_limit 7 too_many_hard)).
Proof.
  assert (Forall complete too_many_hard) as Hc.
  { unfold too_many_hard. repeat constructor;
      apply complete_lookups; repeat split; vm_compute; by eexists. }
  split; [done|]. eexists. split; [vm_compute; reflexivity|].
  apply (complete_records_raise_no_attribute_error HtmlPresenter
           too_many_hard 7 None);
    [done|]. vm_compute. reflexivity.
Defined.

(** ** Records of integers *)

(** X18: on [UserStats] records whose numbers are within the limit of
    digits, either presenter returns the report when the number of days
    is within the limit too, and raises [ValueError], whatever the
    records, when it is not. *)
Theorem records_report_or_value_error (self : BasePresenter)
    (l : list UserStats) (days : Z) (msg : option str) :
  Forall stats_within_limit l →
  Dyn.present_stats self (map Dyn.of_stats l) days msg
  = if within_digit_limit days
    then Dyn.Ok (present_stats self l days msg)
    else Dyn.Raise Dyn.ValueError.
Proof.
  intros Hl. destruct (within_digit_limit days) eqn:Hd.
  - by apply present_stats_of_stats.
  - destruct self; cbn [Dyn.present_stats];
      unfold Dyn.text_present_stats, Dyn.html_present_stats;
      rewrite sorted_of_stats; cbn [Dyn.bind];
      unfold Dyn.int_to_str; by rewrite Hd.
Qed.

Lemma records_report_or_value_error_witness :
  Dyn.present_stats TextPresenter (map Dyn.of_stats sample) 7 None
  = Dyn.Ok (present_stats TextPresenter sample 7 None).
Proof.
  apply (records_report_or_value_error TextPresenter sample 7 None).
  repeat (apply Forall_cons_2; [by vm_compute|]). apply Forall_nil_2.
Defined.

(** ** Calls one after the other *)

Lemma holds_stats_weaken (σ σ' : Heap.store) (xs : Heap.loc)
    (l : list UserStats) :
  σ ⊆ σ' → Heap.holds_stats σ xs l → Heap.holds_stats σ' xs l.
Proof.
  intros Hsub (ps & Hxs & Hps). exists ps.
  split; [exact (lookup_weaken _ _ _ _ Hxs Hsub)|].
  eapply Forall2_impl; [exact Hps|]. intros p s Hp.
  exact (lookup_weaken _ _ _ _ Hp Hsub).
Qed.

Lemma present_stats_store (cls : BasePresenter) (σ : Heap.store)
    (self xs : Heap.loc) (l : list UserStats) (days : Z) (msg : option str) :
  σ !! self = Some (Heap.ObjPresenter cls) →
  Heap.holds_stats σ xs l →
  ∃ σ', Heap.present_stats self xs days msg σ
        = Some (present_stats cls l days msg, σ')
        ∧ σ ⊆ σ'.
Proof.
  intros Hself Hl. unfold Heap.present_stats. rewrite Hself.
  destruct cls; [by apply text_present_stats_store
                | by apply html_present_stats_store].
Qed.

(** X16: two calls one after the other, on the same list, with the same
    presenter or with two presenters: the second call finds the list and
    the presenters as the first call found them, and each call returns
    the report it returns alone. *)
Theorem two_calls_same_reports (σ : Heap.store) (p1 p2 xs : Heap.loc)
    (c1 c2 : BasePresenter) (l : list UserStats)
    (days1 days2 : Z) (msg1 msg2 : option str) :
  σ !! p1 = Some (Heap.ObjPresenter c1) →
  σ !! p2 = Some (Heap.ObjPresenter c2) →
  Heap.holds_stats σ xs l →
  ∃ σ1 σ2,
    Heap.present_stats p1 xs days1 msg1 σ
    = Some (present_stats c1 l days1 msg1, σ1)
    ∧ Heap.present_stats p2 xs days2 msg2 σ1
      = Some (present_stats c2 l days2 msg2, σ2)
    ∧ σ ⊆ σ2.
Proof.
  intros H1 H2 Hl.
  destruct (present_stats_store c1 σ p1 xs l days1 msg1 H1 Hl)
    as (σ1 & Hrun1 & Hsub1).
  destruct (present_stats_store c2 σ1 p2 xs l days2 msg2)
    as (σ2 & Hrun2 & Hsub2).
  - exact (lookup_weaken _ _ _ _ H2 Hsub1).
  - by apply (holds_stats_weaken σ).
  - exists σ1, σ2. split; [done|]. split; [done|]. by trans σ1.
Qed.

Lemma two_calls_same_reports_witness :
  ∃ σ1 σ2,
    Heap.present_stats 1%positive 4%positive 7 None Heap.sample_store
    = Some (present_stats TextPresenter
              [mkUserStats (lit "carol") 5 5 0 0;
               mkUserStats (lit "alice") 10 5 3 2;
               mkUserStats (lit "carol") 5 5 0 0] 7 None, σ1)
    ∧ Heap.present_stats 1%positive 4%positive 30 (Some (lit "done")) σ1
      = Some (present_stats TextPresenter
                [mkUserStats (lit "carol") 5 5 0 0;
                 mkUserStats (lit "alice") 10 5 3 2;
                 mkUserStats (lit "carol") 5 5 0 0] 30 (Some (lit "done")),
              σ2)
    ∧ Heap.sample_store ⊆ σ2.
Proof.
  apply (two_calls_same_reports Heap.sample_store 1 1 4);
    [reflexivity | reflexivity |].
  exists [3%positive; 2%positive; 3%positive]. split; [reflexivity|].
  repeat constructor.
Defined.

